(** * ReconMC: wire codec, retry executor, mode classifier, depth guard
      and the coordinator's fleet registry.

    The coordinator side ([agentService.ts], [redis.ts], the agent routes)
    is embedded from its TypeScript source.  The scanner-side modules
    ([protocol/varint], [retry], [uuid], [scanner]) are only reachable through
    their test file, so their definitions are modelled from the written
    specification and marked as such. *)

From Stdlib Require Import ZArith Lia Bool Ascii String.
From stdpp Require Import gmap strings list fin_maps.

Local Open Scope Z_scope.

(** A computation that may throw. *)
Inductive Result (E A : Type) : Type :=
  | Ok (a : A)
  | Throw (e : E).
Arguments Ok {E A} a.
Arguments Throw {E A} e.

(* ===================================================================== *)
(** ** Wire codec: the variable-length integer format                     *)
(* ===================================================================== *)

Module VarInt.

Definition MSB : Z := 0x80.
Definition REST : Z := 0x7F.
(** Largest magnitude of the supported range, 2^31 - 1. *)
Definition INT_MAX : Z := 0x7FFFFFFF.

Inductive CodecError := RangeError | Truncated.

(** Modelled from the spec: the body of [encode] (protocol/varint is not
    among the sources).  Seven bits per byte, least-significant group
    first, continuation bit set on every byte but the last.  [groups]
    bounds the number of continuation bytes the loop may still emit. *)
Fixpoint encode_loop (groups : nat) (n : Z) : option (list Z) :=
  if Z.eqb (Z.shiftr n 7) 0 then Some [n]
  else
    match groups with
    | O => None
    | S g =>
        match encode_loop g (Z.shiftr n 7) with
        | Some rest => Some (Z.lor (Z.land n REST) MSB :: rest)
        | None => None
        end
    end.

(** Modelled from the spec: [encode] fails with [RangeError] when [n] is
    negative or exceeds the representable magnitude; a 31-bit value has at
    most four continuation bytes. *)
Definition encode (n : Z) : Result CodecError (list Z) :=
  if (n <? 0) || (INT_MAX <? n) then Throw RangeError
  else match encode_loop 4 n with
       | Some bs => Ok bs
       | None => Throw RangeError
       end.

(** Modelled from the spec: [decode], the inverse of [encode]; a sequence
    with no terminating byte is malformed. *)
Fixpoint decode_from (bytes : list Z) (shift acc : Z) : Result CodecError Z :=
  match bytes with
  | [] => Throw Truncated
  | b :: rest =>
      let acc' := acc + Z.shiftl (Z.land b REST) shift in
      if MSB <=? b then decode_from rest (shift + 7) acc' else Ok acc'
  end.

(** Modelled from the spec: [decode] reads from the first byte on. *)
Definition decode (bytes : list Z) : Result CodecError Z := decode_from bytes 0 0.

(** Modelled from the spec: [encodingLength] is a function of the magnitude
    alone, stepping at every seventh power of two. *)
Definition encodingLength (n : Z) : Z :=
  if n <? 2 ^ 7 then 1
  else if n <? 2 ^ 14 then 2
  else if n <? 2 ^ 21 then 3
  else if n <? 2 ^ 28 then 4
  else 5.

End VarInt.

(* ===================================================================== *)
(** ** Retry executor                                                     *)
(* ===================================================================== *)

Module Retry.

(** Hard ceiling of the backoff, in milliseconds. *)
Definition MAX_DELAY_MS : Z := 30000.

(** Modelled from the spec: [calculateRetryDelay] (the retry module is not
    among the sources).  Exponential mode doubles the base delay per
    attempt index and caps it; flat mode returns the base delay. *)
Definition calculateRetryDelay (attemptIndex : nat) (baseDelay : Z) (exponential : bool) : Z :=
  if exponential then Z.min (baseDelay * 2 ^ Z.of_nat attemptIndex) MAX_DELAY_MS
  else baseDelay.

Record RetryOptions := {
  retries : nat;
  retryDelay : Z;
  exponential : bool
}.

(** What a call of [withRetry] leaves behind: the value and attempt count
    or the propagated error, the state the operation's closure ended in,
    and the delays slept between attempts. *)
Record RetryRun (St E A : Type) := {
  outcome : Result E (A * nat);
  final : St;
  slept : list Z
}.
Arguments outcome {St E A} _.
Arguments final {St E A} _.
Arguments slept {St E A} _.

Section Executor.
Context {St E A : Type}.
(** The asynchronous operation: a closure over state [St] that returns a
    value or throws. *)
Variable operation : St -> Result E A * St.
Variable opts : RetryOptions.

(** Modelled from the spec: the attempt loop of [withRetry].  [left] is
    the number of retries still allowed, [attempt] the zero-based index
    of the attempt about to run. *)
Fixpoint attemptLoop (left attempt : nat) (s : St) (waits : list Z) : RetryRun St E A :=
  match operation s with
  | (Ok v, s') => {| outcome := Ok (v, S attempt); final := s'; slept := waits |}
  | (Throw e, s') =>
      match left with
      | O => {| outcome := Throw e; final := s'; slept := waits |}
      | S left' =>
          attemptLoop left' (S attempt) s'
            (waits ++ [calculateRetryDelay attempt (retryDelay opts) (exponential opts)])
      end
  end.

(** Modelled from the spec: [withRetry] runs the loop with [retries]
    retries allowed, starting at attempt 0. *)
Definition withRetry (s : St) : RetryRun St E A := attemptLoop (retries opts) 0 s [].

(** The closure's state after [i] invocations, and what the invocation
    with zero-based index [i] returns. *)
Fixpoint stateAfter (i : nat) (s : St) : St :=
  match i with
  | O => s
  | S j => snd (operation (stateAfter j s))
  end.

Definition invocation (i : nat) (s : St) : Result E A := fst (operation (stateAfter i s)).

End Executor.

Definition isThrow {E A} (r : Result E A) : Prop :=
  match r with Throw _ => True | Ok _ => False end.

(** The two operations of the executor's tests: one that fails on its
    first two calls and then succeeds, one that always fails.  The state
    is the closure's call counter. *)
Definition failsTwice (calls : Z) : Result string string * Z :=
  let calls := calls + 1 in
  if calls <? 3 then (Throw "fail"%string, calls) else (Ok "ok"%string, calls).

Definition alwaysFails (calls : Z) : Result string string * Z :=
  (Throw "always fails"%string, calls + 1).

End Retry.

(* ===================================================================== *)
(** ** Mode classifier                                                    *)
(* ===================================================================== *)

Module Classifier.

Inductive ServerMode := online | offline | unknown.

Record Player := { player_id : string; player_name : string }.

Definition isHexDigit (c : ascii) : bool :=
  let n := N_of_ascii c in
  ((48 <=? n) && (n <=? 57) || (65 <=? n) && (n <=? 70) || (97 <=? n) && (n <=? 102))%N.

(** Consume exactly [k] hexadecimal digits. *)
Fixpoint hexRun (k : nat) (s : string) : option string :=
  match k with
  | O => Some s
  | S k' =>
      match s with
      | String c rest => if isHexDigit c then hexRun k' rest else None
      | EmptyString => None
      end
  end.

Definition dash (s : string) : option string :=
  match s with
  | String "-"%char rest => Some rest
  | _ => None
  end.

(** Runs of hexadecimal digits of the given lengths, separated by single
    dashes; returns what is left of the string. *)
Fixpoint dashedGroups (groups : list nat) (s : string) : option string :=
  match groups with
  | [] => Some s
  | [k] => hexRun k s
  | k :: more =>
      match hexRun k s with
      | Some s' =>
          match dash s' with
          | Some s'' => dashedGroups more s''
          | None => None
          end
      | None => None
      end
  end.

(** Modelled from the spec: [isValidUUIDFormatSync] (the uuid module is not
    among the sources): the canonical dashed form, 8-4-4-4-12 hexadecimal
    digits in either case, and nothing else. *)
Definition isValidUUIDFormatSync (s : string) : bool :=
  match dashedGroups [8; 4; 4; 4; 12]%nat s with
  | Some EmptyString => true
  | _ => false
  end.

(** Modelled from the spec: [detectServerModeSync]: an empty sample is
    inconclusive, a sample of well-formed identifiers only is [online],
    and one malformed identifier makes the sample inconclusive. *)
Definition detectServerModeSync (players : list Player) : ServerMode :=
  match players with
  | [] => unknown
  | _ => if forallb (fun p => isValidUUIDFormatSync (player_id p)) players
         then online else unknown
  end.

(** The two players of the classifier's tests. *)
Definition notch : Player :=
  {| player_id := "069a79f4-44e9-4726-a5be-fca90e38aaf5"; player_name := "Notch" |}.
Definition fake : Player := {| player_id := "badid"; player_name := "Fake" |}.

End Classifier.

(* ===================================================================== *)
(** ** JSON depth guard                                                   *)
(* ===================================================================== *)

Module DepthGuard.

#[local] Unset Elimination Schemes.
Inductive Json :=
  | JNull
  | JUndefined
  | JBool (b : bool)
  | JNumber (z : Z)
  | JString (s : string)
  | JArray (items : list Json)
  | JObject (fields : list (string * Json)).
#[local] Set Elimination Schemes.

Definition MAX_JSON_DEPTH : nat := 32.

Definition maxOf (l : list nat) : nat := foldr Nat.max 0%nat l.

(** Modelled from the spec: the recursion of [getJsonDepth] (the scanner
    module is not among the sources).  Scalars, null and undefined measure 0; a
    container measures one more than its deepest child; a container met
    at the configured maximum level is counted but not entered. *)
Fixpoint depthFrom (level : nat) (v : Json) : nat :=
  match v with
  | JArray items =>
      if (MAX_JSON_DEPTH <=? level)%nat then 1%nat
      else S (maxOf (map (depthFrom (S level)) items))
  | JObject fields =>
      if (MAX_JSON_DEPTH <=? level)%nat then 1%nat
      else S (maxOf (map (fun kv => depthFrom (S level) (snd kv)) fields))
  | _ => 0%nat
  end.

(** Modelled from the spec: [getJsonDepth] measures from level 0. *)
Definition getJsonDepth (v : Json) : nat := depthFrom 0 v.

(** The nesting depth of a value with no cap, as the spec words it. *)
Fixpoint nesting (v : Json) : nat :=
  match v with
  | JArray items => S (maxOf (map nesting items))
  | JObject fields => S (maxOf (map (fun kv => nesting (snd kv)) fields))
  | _ => 0%nat
  end.

Definition isScalar (v : Json) : bool :=
  match v with
  | JArray _ | JObject _ => false
  | _ => true
  end.

Definition children (v : Json) : list Json :=
  match v with
  | JArray items => items
  | JObject fields => map snd fields
  | _ => []
  end.

(** [v] with every container at level [k] emptied: what is left of a value
    when nothing below level [k] is looked at. *)
Fixpoint prune (k : nat) (v : Json) {struct v} : Json :=
  match v with
  | JArray items =>
      match k with
      | O => JArray []
      | S k' => JArray (map (prune k') items)
      end
  | JObject fields =>
      match k with
      | O => JObject []
      | S k' => JObject (map (fun kv => (fst kv, prune k' (snd kv))) fields)
      end
  | _ => v
  end.

(** The test's structure: [k] objects wrapped around a string leaf. *)
Fixpoint nest (k : nat) : Json :=
  match k with
  | O => JString "leaf"
  | S k' => JObject [("n"%string, nest k')]
  end.

End DepthGuard.

(* ===================================================================== *)
(** ** Cache connection ([db/redis.ts])                                   *)
(* ===================================================================== *)

Module RedisLayer.

(** The status of an ioredis client; only [ready] is ever tested for. *)
Inductive ClientStatus := ready | connecting | closed.

Definition isReady (c : option ClientStatus) : bool :=
  match c with Some ready => true | _ => false end.

(** The module-level connection state, together with the two things the
    environment decides: whether constructing a client throws, and whether
    a command sent on a ready client rejects. *)
Record RedisConn := {
  redisClient : option ClientStatus;
  redisDisabled : bool;
  redisUrlBlank : bool;
  constructorThrows : bool;
  commandRejects : bool
}.

Definition setDisabled (c : RedisConn) : RedisConn :=
  {| redisClient := redisClient c; redisDisabled := true;
     redisUrlBlank := redisUrlBlank c;
     constructorThrows := constructorThrows c;
     commandRejects := commandRejects c |}.

Definition setClient (c : RedisConn) (st : ClientStatus) : RedisConn :=
  {| redisClient := Some st; redisDisabled := redisDisabled c;
     redisUrlBlank := redisUrlBlank c;
     constructorThrows := constructorThrows c;
     commandRejects := commandRejects c |}.

(** [getRedisClient]: the client the caller gets (by its status), and the
    connection state afterwards.  A freshly constructed client is still
    connecting. *)
Definition getRedisClient (c : RedisConn) : option ClientStatus * RedisConn :=
  if redisDisabled c then (None, c)
  else if isReady (redisClient c) then (redisClient c, c)
  else if redisUrlBlank c then (None, setDisabled c)
  else if constructorThrows c then (None, setDisabled c)
  else (Some connecting, setClient c connecting).

(** [isRedisAvailable] *)
Definition isRedisAvailable (c : RedisConn) : bool * RedisConn :=
  let '(client, c') := getRedisClient c in (isReady client, c').

(** The hash stored under [AGENT_DATA(id)]; a field that was never set is
    [None], as a property read of the [hgetall] result would give
    [undefined]. *)
Record AgentHash := {
  h_id : option string;
  h_name : option string;
  h_status : option string;
  h_registeredAt : option Z
}.

Definition emptyHash : AgentHash :=
  {| h_id := None; h_name := None; h_status := None; h_registeredAt := None |}.

(** [Object.keys(data).length > 0] *)
Definition hashHasKeys (h : AgentHash) : bool :=
  match h_id h, h_name h, h_status h, h_registeredAt h with
  | None, None, None, None => false
  | _, _, _, _ => true
  end.

(** The keys of [REDIS_KEYS] the agent service touches: the online set,
    the heartbeat strings (value and time-to-live in seconds) and the data
    hashes (fields and time-to-live, if one was set). *)
Record RedisData := {
  AGENTS_ONLINE : gset string;
  AGENT_HEARTBEAT : gmap string (Z * Z);
  AGENT_DATA : gmap string (AgentHash * option Z)
}.

Definition sadd (x : string) (d : RedisData) : RedisData :=
  {| AGENTS_ONLINE := {[x]} ∪ AGENTS_ONLINE d;
     AGENT_HEARTBEAT := AGENT_HEARTBEAT d; AGENT_DATA := AGENT_DATA d |}.

Definition srem (x : string) (d : RedisData) : RedisData :=
  {| AGENTS_ONLINE := AGENTS_ONLINE d ∖ {[x]};
     AGENT_HEARTBEAT := AGENT_HEARTBEAT d; AGENT_DATA := AGENT_DATA d |}.

Definition smembers (d : RedisData) : list string := elements (AGENTS_ONLINE d).

Definition setex (key : string) (ttl value : Z) (d : RedisData) : RedisData :=
  {| AGENTS_ONLINE := AGENTS_ONLINE d;
     AGENT_HEARTBEAT := <[key := (value, ttl)]> (AGENT_HEARTBEAT d);
     AGENT_DATA := AGENT_DATA d |}.

Definition delHeartbeat (key : string) (d : RedisData) : RedisData :=
  {| AGENTS_ONLINE := AGENTS_ONLINE d;
     AGENT_HEARTBEAT := delete key (AGENT_HEARTBEAT d);
     AGENT_DATA := AGENT_DATA d |}.

Definition delData (key : string) (d : RedisData) : RedisData :=
  {| AGENTS_ONLINE := AGENTS_ONLINE d;
     AGENT_HEARTBEAT := AGENT_HEARTBEAT d;
     AGENT_DATA := delete key (AGENT_DATA d) |}.

(** [hset key fields]: sets the given fields, keeping the others and the
    key's time-to-live; a missing key is created without one. *)
Definition hset (key : string) (upd : AgentHash -> AgentHash) (d : RedisData) : RedisData :=
  let entry := match AGENT_DATA d !! key with
               | Some (h, ttl) => (upd h, ttl)
               | None => (upd emptyHash, None)
               end in
  {| AGENTS_ONLINE := AGENTS_ONLINE d;
     AGENT_HEARTBEAT := AGENT_HEARTBEAT d;
     AGENT_DATA := <[key := entry]> (AGENT_DATA d) |}.

(** [expire key ttl]: no effect on a missing key. *)
Definition expire (key : string) (ttl : Z) (d : RedisData) : RedisData :=
  match AGENT_DATA d !! key with
  | Some (h, _) =>
      {| AGENTS_ONLINE := AGENTS_ONLINE d;
         AGENT_HEARTBEAT := AGENT_HEARTBEAT d;
         AGENT_DATA := <[key := (h, Some ttl)]> (AGENT_DATA d) |}
  | None => d
  end.

(** [hgetall key]: the empty object for a missing key. *)
Definition hgetall (key : string) (d : RedisData) : AgentHash :=
  match AGENT_DATA d !! key with
  | Some (h, _) => h
  | None => emptyHash
  end.

(** [safeRedisCommand]: runs the command only on a ready client, and turns
    a rejected command into the fallback value ([null] when none is
    given), leaving the cache as it was. *)
Definition safeRedisCommand {T : Type}
    (command : RedisData -> T * RedisData) (fallbackValue : option T)
    (c : RedisConn) (d : RedisData) : option T * RedisConn * RedisData :=
  let '(client, c') := getRedisClient c in
  if negb (isReady client) then (fallbackValue, c', d)
  else if commandRejects c' then (fallbackValue, c', d)
  else let '(r, d') := command d in (Some r, c', d').

End RedisLayer.

(* ===================================================================== *)
(** ** Fleet registry ([services/agentService.ts])                        *)
(* ===================================================================== *)

Module AgentService.
Import RedisLayer.

Definition HEARTBEAT_TIMEOUT_MS : Z := 60000.
Definition AGENT_TTL_SECONDS : Z := 70.

(** A row of the [agents] relation.  Timestamps are milliseconds. *)
Record Agent := {
  a_id : string;
  a_name : string;
  a_status : string;
  a_lastHeartbeat : Z;
  a_currentQueueId : option string;
  a_registeredAt : Z;
  a_secret : option string
}.

(** The process as the service sees it: the durable table keyed by agent
    id, the cache connection and the cache contents. *)
Record World := {
  db : gmap string Agent;
  conn : RedisConn;
  cache : RedisData
}.

(** The character class [[a-zA-Z0-9_-]]. *)
Definition isIdChar (c : ascii) : bool :=
  let n := N_of_ascii c in
  ((97 <=? n) && (n <=? 122) || (65 <=? n) && (n <=? 90)
   || (48 <=? n) && (n <=? 57) || (n =? 95) || (n =? 45))%N.

Fixpoint allChars (p : ascii -> bool) (s : string) : bool :=
  match s with
  | EmptyString => true
  | String c rest => p c && allChars p rest
  end.

(** [/^[a-zA-Z0-9_-]+$/.test(s)] *)
Definition matchesIdPattern (s : string) : bool :=
  match s with
  | EmptyString => false
  | _ => allChars isIdChar s
  end.

(** [isValidAgentId] *)
Definition isValidAgentId (agentId : string) : bool :=
  matchesIdPattern agentId
  && (1 <=? String.length agentId)%nat
  && (String.length agentId <=? 100)%nat.

Definition isDigit (c : ascii) : bool :=
  let n := N_of_ascii c in ((48 <=? n) && (n <=? 57))%N.

(** [agentId.match(/^agent-(\d+)$/)]: the captured digits. *)
Definition matchAgentNumber (agentId : string) : option string :=
  if String.prefix "agent-" agentId then
    let digits := String.substring 6 (String.length agentId - 6) agentId in
    match digits with
    | EmptyString => None
    | _ => if allChars isDigit digits then Some digits else None
    end
  else None.

(** Conversion of a number to a signed 32-bit integer, as the bitwise
    operators apply it. *)
Definition toInt32 (x : Z) : Z := (x + 2 ^ 31) mod 2 ^ 32 - 2 ^ 31.

(** One round of the hash loop: [hash = ((hash << 5) - hash) + char;
    hash = hash & hash]. *)
Definition hashStep (hash : Z) (c : ascii) : Z :=
  toInt32 (toInt32 (hash * 2 ^ 5) - hash + Z.of_N (N_of_ascii c)).

Fixpoint hashChars (hash : Z) (s : string) : Z :=
  match s with
  | EmptyString => hash
  | String c rest => hashChars (hashStep hash c) rest
  end.

Section Naming.
(** JavaScript's [parseInt(digits, 10)] and number-to-string conversion;
    both work on doubles and are left to the caller. *)
Variable parseInt10 : string -> Z.
Variable numberToString : Z -> string.

(** [getAgentNumberFromId] *)
Definition getAgentNumberFromId (agentId : string) : Z :=
  match matchAgentNumber agentId with
  | Some digits => parseInt10 digits
  | None => Z.abs (hashChars 0 agentId) mod 1000 + 1
  end.

(** [options?.name || `Agent ${getAgentNumberFromId(agentId)}`] *)
Definition resolveName (agentId : string) (name : option string) : string :=
  match name with
  | Some (String c rest) => String c rest
  | _ => "Agent " +:+ numberToString (getAgentNumberFromId agentId)
  end.

(** Modelled from the spec: the row an insert with values
    [{id, name, status}] creates ([db/schema] is not among the sources):
    the heartbeat and registration timestamps default to the current
    time, and there is no assignment and no secret. *)
Definition insertedRow (agentId agentName : string) (now : Z) : Agent :=
  {| a_id := agentId; a_name := agentName; a_status := "idle";
     a_lastHeartbeat := now; a_currentQueueId := None;
     a_registeredAt := now; a_secret := None |}.

(** The [onConflictDoUpdate] branch of the upsert. *)
Definition conflictUpdate (old : Agent) (agentName : string) (now : Z) : Agent :=
  {| a_id := a_id old; a_name := agentName; a_status := "idle";
     a_lastHeartbeat := now; a_currentQueueId := None;
     a_registeredAt := a_registeredAt old; a_secret := a_secret old |}.

Definition upsertAgent (agentId agentName : string) (now : Z)
    (table : gmap string Agent) : gmap string Agent :=
  match table !! agentId with
  | Some old => <[agentId := conflictUpdate old agentName now]> table
  | None => <[agentId := insertedRow agentId agentName now]> table
  end.

Record Registered := { r_agentId : string; r_agentName : string }.

(** The pipeline [registerAgent] sends to the cache. *)
Definition registerPipeline (agentId agentName : string) (now : Z)
    (d : RedisData) : unit * RedisData :=
  let d1 := sadd agentId d in
  let d2 := setex agentId AGENT_TTL_SECONDS now d1 in
  let d3 := hset agentId
              (fun _ => {| h_id := Some agentId; h_name := Some agentName;
                           h_status := Some "idle"%string;
                           h_registeredAt := Some now |}) d2 in
  (tt, expire agentId AGENT_TTL_SECONDS d3).

(** [registerAgent] *)
Definition registerAgent (w : World) (now : Z) (agentId : string)
    (name : option string) : Result string Registered * World :=
  if negb (isValidAgentId agentId) then (Throw "Invalid agentId format"%string, w)
  else
    let agentName := resolveName agentId name in
    let table := upsertAgent agentId agentName now (db w) in
    let '(_, c, d) :=
      safeRedisCommand (registerPipeline agentId agentName now) None
        (conn w) (cache w) in
    (Ok {| r_agentId := agentId; r_agentName := agentName |},
     {| db := table; conn := c; cache := d |}).

End Naming.

(** A string is truthy when it is not empty. *)
Definition truthy (o : option string) : option string :=
  match o with
  | Some (String c rest) => Some (String c rest)
  | _ => None
  end.

(** The [set] clause of the heartbeat update. *)
Definition heartbeatUpdate (old : Agent) (now : Z)
    (status currentQueueId : option string) : Agent :=
  {| a_id := a_id old;
     a_name := a_name old;
     a_status := match truthy status with Some st => st | None => a_status old end;
     a_lastHeartbeat := now;
     a_currentQueueId := match currentQueueId with
                         | Some q => Some q
                         | None => a_currentQueueId old
                         end;
     a_registeredAt := a_registeredAt old;
     a_secret := a_secret old |}.

(** The pipeline [updateHeartbeat] sends to the cache. *)
Definition heartbeatPipeline (agentId : string) (now : Z) (status : option string)
    (d : RedisData) : unit * RedisData :=
  let d1 := setex agentId AGENT_TTL_SECONDS now d in
  let d2 := match truthy status with
            | Some st =>
                hset agentId
                  (fun h => {| h_id := h_id h; h_name := h_name h;
                               h_status := Some st;
                               h_registeredAt := h_registeredAt h |}) d1
            | None => d1
            end in
  let d3 := expire agentId AGENT_TTL_SECONDS d2 in
  (tt, sadd agentId d3).

(** [updateHeartbeat] *)
Definition updateHeartbeat (w : World) (now : Z) (agentId : string)
    (status currentQueueId : option string) : Result string unit * World :=
  if negb (isValidAgentId agentId) then (Throw "Invalid agentId format"%string, w)
  else
    match db w !! agentId with
    | None => (Throw "Agent not registered"%string, w)
    | Some existing =>
        let table :=
          <[agentId := heartbeatUpdate existing now status currentQueueId]> (db w) in
        let '(_, c, d) :=
          safeRedisCommand (heartbeatPipeline agentId now status) None
            (conn w) (cache w) in
        (Ok tt, {| db := table; conn := c; cache := d |})
    end.

(** [removeOfflineAgents]: the sweep of the durable table, skipped when
    the cache is available. *)
Definition removeOfflineAgents (w : World) (now : Z) : World :=
  let '(available, c) := isRedisAvailable (conn w) in
  if available then {| db := db w; conn := c; cache := cache w |}
  else
    let threshold := now - HEARTBEAT_TIMEOUT_MS in
    {| db := filter (fun kv : string * Agent => ¬ (a_lastHeartbeat kv.2 < threshold)) (db w);
       conn := c; cache := cache w |}.

(** An element of the list [listOnlineAgents] returns.  On the cache path
    the first three fields are property reads of a hash and may be
    [undefined]. *)
Record ListedAgent := {
  l_id : option string;
  l_name : option string;
  l_status : option string;
  l_lastHeartbeat : Z;
  l_registeredAt : Z;
  l_currentQueueId : option string;
  l_secret : option string;
  l_offline : bool
}.

Definition fromCache (now : Z) (h : AgentHash) : ListedAgent :=
  {| l_id := h_id h; l_name := h_name h; l_status := h_status h;
     l_lastHeartbeat := now; l_registeredAt := now;
     l_currentQueueId := None; l_secret := None; l_offline := false |}.

Definition fromDurable (now : Z) (a : Agent) : ListedAgent :=
  {| l_id := Some (a_id a); l_name := Some (a_name a); l_status := Some (a_status a);
     l_lastHeartbeat := a_lastHeartbeat a; l_registeredAt := a_registeredAt a;
     l_currentQueueId := a_currentQueueId a; l_secret := a_secret a;
     l_offline := HEARTBEAT_TIMEOUT_MS <? now - a_lastHeartbeat a |}.

(** The second cache command of [listOnlineAgents]: one [hgetall] per
    member, keeping the hashes that have keys. *)
Definition readHashes (ids : list string) (d : RedisData) : list AgentHash * RedisData :=
  (List.filter hashHasKeys (map (fun i => hgetall i d) ids), d).

(** The fallback of [listOnlineAgents]: sweep, then read the table. *)
Definition listDurable (w : World) (now sweepNow : Z) : list ListedAgent * World :=
  let w' := removeOfflineAgents w sweepNow in
  (map (fun kv : string * Agent => fromDurable now kv.2) (map_to_list (db w')), w').

(** [listOnlineAgents].  [now] is the clock read on entry, [sweepNow] the
    later one [removeOfflineAgents] takes. *)
Definition listOnlineAgents (w : World) (now sweepNow : Z) : list ListedAgent * World :=
  let '(onlineAgentIds, c1, d1) :=
    safeRedisCommand (fun d => (smembers d, d)) None (conn w) (cache w) in
  let w1 := {| db := db w; conn := c1; cache := d1 |} in
  match onlineAgentIds with
  | Some (i :: ids) =>
      let '(agentsData, c2, d2) := safeRedisCommand (readHashes (i :: ids)) None c1 d1 in
      let w2 := {| db := db w; conn := c2; cache := d2 |} in
      match agentsData with
      | Some (h :: hs) => (map (fromCache now) (h :: hs), w2)
      | _ => listDurable w2 now sweepNow
      end
  | _ => listDurable w1 now sweepNow
  end.

(** The pipeline [removeAgent] sends to the cache. *)
Definition removePipeline (agentId : string) (d : RedisData) : unit * RedisData :=
  (tt, delData agentId (delHeartbeat agentId (srem agentId d))).

(** [removeAgent] *)
Definition removeAgent (w : World) (agentId : string) : bool * World :=
  if negb (isValidAgentId agentId) then (false, w)
  else
    let '(_, c, d) := safeRedisCommand (removePipeline agentId) None (conn w) (cache w) in
    (true, {| db := db w; conn := c; cache := d |}).

End AgentService.

(* ===================================================================== *)
(** ** Agent routes                                                       *)
(* ===================================================================== *)

Module AgentRoutes.
Import RedisLayer AgentService.

(** [message.includes(needle)] *)
Fixpoint includes (needle message : string) : bool :=
  String.prefix needle message
  || match message with
     | EmptyString => false
     | String _ rest => includes needle rest
     end.

Inductive Payload :=
  | ErrorBody (error : string)
  | OkBody
  | AgentList (agents : list ListedAgent).

Record Reply := { code : nat; payload : Payload }.

(** The handler of [POST /agents/heartbeat].  The body's [agentId] is
    either absent or a string, and the empty string is as good as absent
    ([!agentId || typeof agentId !== 'string']).  An error that is neither
    of the two recognised ones is thrown on. *)
Definition heartbeatHandler (w : World) (now : Z) (agentId : option string)
    (status currentQueueId : option string) : Result string Reply * World :=
  match agentId with
  | Some (String c rest) =>
      match updateHeartbeat w now (String c rest) status currentQueueId with
      | (Ok _, w') => (Ok {| code := 200; payload := OkBody |}, w')
      | (Throw message, w') =>
          if includes "Invalid agentId" message
          then (Ok {| code := 400; payload := ErrorBody message |}, w')
          else if includes "not registered" message
          then (Ok {| code := 404; payload := ErrorBody message |}, w')
          else (Throw message, w')
      end
  | _ => (Ok {| code := 400; payload := ErrorBody "agentId is required" |}, w)
  end.

(** The handler of [DELETE /agents/:id], past the access check.  A reply
    sent without a code has status 200. *)
Definition deleteHandler (w : World) (id : string) : Reply * World :=
  let '(success, w') := removeAgent w id in
  if negb success then ({| code := 404; payload := ErrorBody "Agent not found" |}, w')
  else ({| code := 200; payload := OkBody |}, w').

(** The handler of [GET /agents], past the access check. *)
Definition listHandler (w : World) (now sweepNow : Z) : Reply * World :=
  let '(l, w') := listOnlineAgents w now sweepNow in
  ({| code := 200; payload := AgentList l |}, w').

End AgentRoutes.

(* ===================================================================== *)
(** ** Vocabulary of the registry's specification                         *)
(* ===================================================================== *)

Module RegistrySpec.
Import RedisLayer AgentService.

(** The characters an agent id may be made of. *)
Definition idAlphabet : list ascii :=
  list_ascii_of_string
    "abcdefghijklmnopqrstuvwxyzABCDEFGHIJKLMNOPQRSTUVWXYZ0123456789-_".

(** An identifier of 1 to 100 characters, each alphanumeric, a dash or an
    underscore. *)
Definition WellFormedId (s : string) : Prop :=
  (1 <= String.length s <= 100)%nat /\
  Forall (fun c => In c idAlphabet) (list_ascii_of_string s).

(** The client exists, is ready, and the cache is not disabled: what
    [isRedisAvailable] answers. *)
Definition clientReady (c : RedisConn) : bool :=
  negb (redisDisabled c) && isReady (redisClient c).

(** The cache is available and commands sent to it go through. *)
Definition cacheUsable (c : RedisConn) : bool :=
  clientReady c && negb (commandRejects c).

(** The data hashes of the online-set members, those without keys left
    out (a member whose hash has expired has none). *)
Definition cachedHashes (d : RedisData) : list AgentHash :=
  List.filter hashHasKeys (map (fun i => hgetall i d) (smembers d)).

(** The table without the rows whose heartbeat is older than the timeout
    at [now]. *)
Definition swept (now : Z) (table : gmap string Agent) : gmap string Agent :=
  filter (fun kv : string * Agent => ¬ (a_lastHeartbeat kv.2 < now - HEARTBEAT_TIMEOUT_MS)) table.

(** The reading of [listOnlineAgents] under which a readable, non-empty
    online set is what gets listed, every member as online. *)
Definition ListsOnlineSet (w : World) (now sweepNow : Z) : Prop :=
  cacheUsable (conn w) = true ->
  smembers (cache w) <> [] ->
  let l := fst (listOnlineAgents w now sweepNow) in
  map l_id l = map Some (smembers (cache w)) /\
  Forall (fun a => l_offline a = false) l.

(** The reading of [removeAgent] under which a well-formed id is out of
    the online set once the call has returned. *)
Definition RemovesFromOnlineSet (w : World) (agentId : string) : Prop :=
  isValidAgentId agentId = true ->
  agentId ∉ AGENTS_ONLINE (cache (snd (removeAgent w agentId))).

(** Worlds used as concrete inputs. *)
Definition readyConn : RedisConn :=
  {| redisClient := Some ready; redisDisabled := false; redisUrlBlank := false;
     constructorThrows := false; commandRejects := false |}.

Definition downConn : RedisConn :=
  {| redisClient := Some closed; redisDisabled := false; redisUrlBlank := false;
     constructorThrows := false; commandRejects := false |}.

Definition staleAgent : Agent :=
  {| a_id := "agent-1"; a_name := "Agent 1"; a_status := "busy";
     a_lastHeartbeat := 0; a_currentQueueId := Some "q-7"%string;
     a_registeredAt := 0; a_secret := None |}.

(** One agent in the online set, none in the other keys. *)
Definition onlineOnly : RedisData :=
  {| AGENTS_ONLINE := {[ "agent-1"%string ]}; AGENT_HEARTBEAT := ∅; AGENT_DATA := ∅ |}.

Definition emptyCache : RedisData :=
  {| AGENTS_ONLINE := ∅; AGENT_HEARTBEAT := ∅; AGENT_DATA := ∅ |}.

End RegistrySpec.

(* ===================================================================== *)
(** ** The rest of the cache layer, of the service and of the routes      *)
(* ===================================================================== *)

(** The key namespace of [db/redis.ts]. *)
Module REDIS_KEYS.

Definition AGENTS_ONLINE : string := "reconmc:agents:online".
Definition AGENT_HEARTBEAT (id : string) : string := "reconmc:agent:" +:+ id +:+ ":heartbeat".
Definition AGENT_DATA (id : string) : string := "reconmc:agent:" +:+ id +:+ ":data".
Definition QUEUE_PENDING : string := "reconmc:queue:pending".
Definition QUEUE_PROCESSING : string := "reconmc:queue:processing".
Definition QUEUE_ITEM (id : string) : string := "reconmc:queue:item:" +:+ id.
Definition QUEUE_DUPLICATES : string := "reconmc:queue:duplicates".

End REDIS_KEYS.

Module RedisLifecycle.
Import RedisLayer.

(** [closeRedis]: an existing client is quit (a failing [quit] is only
    logged) and forgotten. *)
Definition closeRedis (c : RedisConn) : RedisConn :=
  match redisClient c with
  | Some _ =>
      {| redisClient := None; redisDisabled := redisDisabled c;
         redisUrlBlank := redisUrlBlank c;
         constructorThrows := constructorThrows c;
         commandRejects := commandRejects c |}
  | None => c
  end.

End RedisLifecycle.

Module AgentCount.
Import RedisLayer AgentService.

(** [scard] *)
Definition scard (d : RedisData) : Z := Z.of_nat (size (AGENTS_ONLINE d)).

(** [getOnlineAgentCount]: the cardinality of the online set when the
    cache answers, else the number of durable rows after the sweep. *)
Definition getOnlineAgentCount (w : World) (sweepNow : Z) : Z * World :=
  let '(count, c, d) :=
    safeRedisCommand (fun d => (scard d, d)) None (conn w) (cache w) in
  let w1 := {| db := db w; conn := c; cache := d |} in
  match count with
  | Some n => (n, w1)
  | None =>
      let w2 := removeOfflineAgents w1 sweepNow in
      (Z.of_nat (size (db w2)), w2)
  end.

End AgentCount.

Module RegisterRoute.
Import RedisLayer AgentService AgentRoutes.




End RegisterRoute.

(** The queue page of the dashboard. *)
Module Dashboard.

(** What [formatRelativeTime] renders: a fixed text, a count with its unit,
    or the locale's rendering of the date itself. *)
Inductive RelativeTime :=
  | JustNow
  | MinutesAgo (n : Z)
  | HoursAgo (n : Z)
  | DaysAgo (n : Z)
  | LocaleDate (date : Z).

(** [formatRelativeTime(date)], with [now] the clock read it takes; both
    are milliseconds. *)
Definition formatRelativeTime (now date : Z) : RelativeTime :=
  let diffMs := now - date in
  let diffMins := diffMs / 60000 in
  let diffHours := diffMs / 3600000 in
  let diffDays := diffMs / 86400000 in
  if diffMins <? 1 then JustNow
  else if diffMins <? 60 then MinutesAgo diffMins
  else if diffHours <? 24 then HoursAgo diffHours
  else if diffDays <? 7 then DaysAgo diffDays
  else LocaleDate date.

End Dashboard.

(** Invariants of the two stores. *)
Module RegistryInvariants.
Import RedisLayer AgentService.

(** Every durable row sits under its own id. *)
Definition TableKeyed (table : gmap string Agent) : Prop :=
  forall k a, table !! k = Some a -> a_id a = k.

(** Every heartbeat key and every data hash of the cache carries the
    agent time-to-live. *)
Definition CacheExpires (d : RedisData) : Prop :=
  (forall k v t, AGENT_HEARTBEAT d !! k = Some (v, t) -> t = AGENT_TTL_SECONDS) /\
  (forall k h t, AGENT_DATA d !! k = Some (h, t) -> t = Some AGENT_TTL_SECONDS).

End RegistryInvariants.

(** Concrete inputs for the properties of the registry. *)
Module RegistryInputs.
Import RedisLayer AgentService.

Definition disabledConn : RedisConn :=
  {| redisClient := None; redisDisabled := true; redisUrlBlank := true;
     constructorThrows := false; commandRejects := false |}.

Definition liveConn : RedisConn :=
  {| redisClient := Some ready; redisDisabled := false; redisUrlBlank := false;
     constructorThrows := false; commandRejects := false |}.

Definition lostConn : RedisConn :=
  {| redisClient := Some closed; redisDisabled := false; redisUrlBlank := false;
     constructorThrows := false; commandRejects := false |}.

Definition noCache : RedisData :=
  {| AGENTS_ONLINE := ∅; AGENT_HEARTBEAT := ∅; AGENT_DATA := ∅ |}.

Definition worker : Agent :=
  {| a_id := "agent-1"; a_name := "Agent 1"; a_status := "busy";
     a_lastHeartbeat := 1000; a_currentQueueId := Some "q-7"%string;
     a_registeredAt := 500; a_secret := Some "s3"%string |}.

(** One registered agent, with the cache disabled, live and lost. *)
Definition durableOnlyWorld : World :=
  {| db := {[ "agent-1"%string := worker ]}; conn := disabledConn; cache := noCache |}.
Definition liveWorld : World :=
  {| db := {[ "agent-1"%string := worker ]}; conn := liveConn; cache := noCache |}.
Definition lostWorld : World :=
  {| db := {[ "agent-1"%string := worker ]}; conn := lostConn; cache := noCache |}.

(** The same agent, also a member of the online set, on a live cache. *)
Definition trackedWorld : World :=
  {| db := {[ "agent-1"%string := worker ]}; conn := liveConn;
     cache := {| AGENTS_ONLINE := {[ "agent-1"%string ]};
                 AGENT_HEARTBEAT := ∅; AGENT_DATA := ∅ |} |}.

(** Stand-ins for JavaScript's number parsing and printing. *)
Definition noParse (digits : string) : Z := 0.
Definition noPrint (n : Z) : string := "N".

End RegistryInputs.

(* ===================================================================== *)
(** ** Theorems                                                           *)
(* ===================================================================== *)

Module VarIntFacts.
Import VarInt.

Lemma low_group_flagged (n : Z) :
  0 <= n -> Z.lor (Z.land n REST) MSB = n mod 128 + 128.
Proof.
  intros Hn. unfold REST, MSB.
  change 0x7F with (Z.ones 7). rewrite Z.land_ones by lia.
  change (2 ^ 7) with 128.
  assert (Hd : Z.land (n mod 128) 128 = 0).
  { apply Z.bits_inj'. intros k Hk. rewrite Z.land_spec, Z.bits_0.
    destruct (Z.eq_dec k 7) as [->|Hne].
    - change 128 with (2 ^ 7) at 1. rewrite Z.mod_pow2_bits_high by lia. reflexivity.
    - change 128 with (2 ^ 7) at 2. rewrite Z.pow2_bits_eqb by lia.
      replace (7 =? k) with false by (symmetry; apply Z.eqb_neq; lia).
      apply andb_false_r. }
  rewrite <- Z.lxor_lor by exact Hd.
  symmetry. apply Z.add_nocarry_lxor. exact Hd.
Qed.

Lemma flagged_low_bits (a : Z) :
  0 <= a < 128 -> Z.land (a + 128) REST = a.
Proof.
  intros Ha. unfold REST. change 0x7F with (Z.ones 7).
  rewrite Z.land_ones by lia. change (2 ^ 7) with 128.
  replace (a + 128) with (a + 1 * 128) by lia.
  rewrite Z.mod_add by lia. apply Z.mod_small. lia.
Qed.

Lemma encodingLength_step (n : Z) :
  128 <= n < 2 ^ 35 ->
  encodingLength n = 1 + encodingLength (Z.shiftr n 7).
Proof.
  intros Hn. rewrite Z.shiftr_div_pow2 by lia.
  change (2 ^ 7) with 128. unfold encodingLength.
  change (2 ^ 7) with 128. change (2 ^ 14) with (128 * 128).
  change (2 ^ 21) with (128 * (128 * 128)).
  change (2 ^ 28) with (128 * (128 * (128 * 128))).
  change (2 ^ 35) with (128 * (128 * (128 * (128 * 128)))) in Hn.
  pose proof (Z.div_mod n 128 ltac:(lia)) as Hdm.
  pose proof (Z.mod_pos_bound n 128 ltac:(lia)) as Hm.
  repeat match goal with
         | |- context [?a <? ?b] => destruct (Z.ltb_spec a b)
         end; lia.
Qed.

(** The loop terminates within its budget, and decoding what it wrote
    recovers the number, whatever accumulator and shift decoding starts
    from. *)
Lemma encode_loop_decode (g : nat) :
  forall n, 0 <= n < 2 ^ (7 * (Z.of_nat g + 1)) ->
    exists bs, encode_loop g n = Some bs /\
               forall shift acc, 0 <= shift ->
                 decode_from bs shift acc = Ok (acc + n * 2 ^ shift).
Proof.
  induction g as [|g IH]; intros n Hn.
  - change (2 ^ (7 * (Z.of_nat 0 + 1))) with 128 in Hn.
    simpl. rewrite Z.shiftr_div_pow2 by lia. change (2 ^ 7) with 128.
    rewrite Z.div_small by lia. simpl.
    eexists; split; [reflexivity|]. intros shift acc Hs. simpl.
    replace (MSB <=? n) with false by (symmetry; apply Z.leb_gt; unfold MSB; lia).
    unfold REST. change 0x7F with (Z.ones 7). rewrite Z.land_ones by lia.
    change (2 ^ 7) with 128. rewrite Z.mod_small by lia.
    rewrite Z.shiftl_mul_pow2 by lia. reflexivity.
  - assert (Hpow : 2 ^ (7 * (Z.of_nat (S g) + 1)) = 128 * 2 ^ (7 * (Z.of_nat g + 1))).
    { replace (7 * (Z.of_nat (S g) + 1)) with (7 + 7 * (Z.of_nat g + 1)) by lia.
      rewrite Z.pow_add_r by lia. reflexivity. }
    rewrite Hpow in Hn. simpl.
    rewrite Z.shiftr_div_pow2 by lia. change (2 ^ 7) with 128.
    destruct (Z.eqb_spec (n / 128) 0) as [Hz|Hnz].
    + assert (n < 128).
      { pose proof (Z.div_mod n 128 ltac:(lia)).
        pose proof (Z.mod_pos_bound n 128 ltac:(lia)). lia. }
      eexists; split; [reflexivity|]. intros shift acc Hs. simpl.
      replace (MSB <=? n) with false by (symmetry; apply Z.leb_gt; unfold MSB; lia).
      unfold REST. change 0x7F with (Z.ones 7). rewrite Z.land_ones by lia.
      change (2 ^ 7) with 128. rewrite Z.mod_small by lia.
      rewrite Z.shiftl_mul_pow2 by lia. reflexivity.
    + assert (Hq : 0 <= n / 128 < 2 ^ (7 * (Z.of_nat g + 1))).
      { split; [apply Z.div_pos; lia|]. apply Z.div_lt_upper_bound; lia. }
      destruct (IH _ Hq) as (rest & Hrest & Hdec).
      rewrite Hrest. eexists; split; [reflexivity|].
      intros shift acc Hs. simpl.
      rewrite low_group_flagged by lia.
      pose proof (Z.mod_pos_bound n 128 ltac:(lia)) as Hm.
      replace (MSB <=? n mod 128 + 128) with true
        by (symmetry; apply Z.leb_le; unfold MSB; lia).
      rewrite flagged_low_bits by lia.
      rewrite Hdec by lia. f_equal.
      rewrite Z.shiftl_mul_pow2 by lia.
      rewrite Z.pow_add_r by lia. change (2 ^ 7) with 128.
      pose proof (Z.div_mod n 128 ltac:(lia)) as Hdm.
      rewrite Hdm at 3. ring.
Qed.

Lemma encode_loop_length (g : nat) :
  forall n bs, 0 <= n < 2 ^ 35 -> encode_loop g n = Some bs ->
    Z.of_nat (length bs) = encodingLength n.
Proof.
  induction g as [|g IH]; intros n bs Hn; simpl;
    rewrite Z.shiftr_div_pow2 by lia; change (2 ^ 7) with 128;
    destruct (Z.eqb_spec (n / 128) 0) as [Hz|Hnz].
  - intros [= <-]. simpl. unfold encodingLength.
    pose proof (Z.div_mod n 128 ltac:(lia)).
    pose proof (Z.mod_pos_bound n 128 ltac:(lia)).
    replace (n <? 2 ^ 7) with true by (symmetry; apply Z.ltb_lt; lia). reflexivity.
  - discriminate.
  - intros [= <-]. simpl. unfold encodingLength.
    pose proof (Z.div_mod n 128 ltac:(lia)).
    pose proof (Z.mod_pos_bound n 128 ltac:(lia)).
    replace (n <? 2 ^ 7) with true by (symmetry; apply Z.ltb_lt; lia). reflexivity.
  - destruct (encode_loop g (n / 128)) as [rest|] eqn:Hrest; [|discriminate].
    intros [= <-].
    assert (Hge : 128 <= n).
    { destruct (Z_lt_le_dec n 128) as [Hlt|]; [|assumption].
      rewrite Z.div_small in Hnz by lia. congruence. }
    rewrite encodingLength_step by lia.
    rewrite Z.shiftr_div_pow2 by lia. change (2 ^ 7) with 128.
    assert (Hq : 0 <= n / 128 < 2 ^ 35).
    { split; [apply Z.div_pos; lia|].
      apply Z.div_lt_upper_bound; lia. }
    rewrite <- (IH _ _ Hq Hrest).
    change (length (Z.lor (Z.land n REST) MSB :: rest)) with (S (length rest)). lia.
Qed.

(** The values the codec's tests check: the round trip on the listed
    numbers and the lengths at the byte boundaries. *)
Example varint_test_values :
  map (fun v => match encode v with Ok bs => decode bs | Throw e => Throw e end)
      [0; 1; 127; 128; 255; 300; 25565; 769; 65535]
    = map Ok [0; 1; 127; 128; 255; 300; 25565; 769; 65535] /\
  map encodingLength [0; 127; 128; 16383; 16384] = [1; 1; 2; 2; 3] /\
  encode (-1) = Throw RangeError /\ encode (2 ^ 31) = Throw RangeError /\
  decode [0x80] = Throw Truncated.
Proof. repeat split; vm_compute; reflexivity. Qed.

(** C1. For every n in the supported range 0 .. 2^31-1, [encode n]
    succeeds, [decode] of its bytes gives back n, and [encodingLength n]
    is the number of bytes written; and [encode 128] is exactly the two
    bytes 0x80, 0x01. *)
Theorem varint_roundtrip_and_length (n : Z) :
  0 <= n <= 2 ^ 31 - 1 ->
  (exists bs, encode n = Ok bs /\
              decode bs = Ok n /\
              Z.of_nat (length bs) = encodingLength n) /\
  encode 128 = Ok [0x80; 0x01].
Proof.
  intros Hn. split; [|reflexivity].
  change (2 ^ 31 - 1) with INT_MAX in Hn.
  unfold encode.
  replace (n <? 0) with false by (symmetry; apply Z.ltb_ge; lia).
  replace (INT_MAX <? n) with false by (symmetry; apply Z.ltb_ge; lia).
  simpl orb. cbv iota.
  destruct (encode_loop_decode 4 n) as (bs & Hbs & Hdec).
  { unfold INT_MAX in Hn. change (2 ^ (7 * (Z.of_nat 4 + 1))) with 34359738368. lia. }
  rewrite Hbs. exists bs. split; [reflexivity|]. split.
  - unfold decode. rewrite Hdec by lia. f_equal. change (2 ^ 0) with 1. lia.
  - apply (encode_loop_length 4); [|exact Hbs].
    unfold INT_MAX in Hn. change (2 ^ 35) with 34359738368. lia.
Qed.

Lemma varint_roundtrip_and_length_witness :
  0 <= 25565 <= 2 ^ 31 - 1 /\
  ((exists bs, encode 25565 = Ok bs /\
               decode bs = Ok 25565 /\
               Z.of_nat (length bs) = encodingLength 25565) /\
   encode 128 = Ok [0x80; 0x01]).
Proof.
  assert (H : 0 <= 25565 <= 2 ^ 31 - 1) by (vm_compute; split; discriminate).
  split; [exact H | exact (varint_roundtrip_and_length 25565 H)].
Defined.

End VarIntFacts.

Module RetryFacts.
Import Retry.

(** C4. In exponential mode the delay is min(b * 2^i, 30000), hence never
    above 30000 ms whatever the attempt index; in flat mode it is the base
    delay whatever the attempt index.  The three tested values are
    1000, 2000 and 4000 ms. *)
Theorem calculateRetryDelay_spec (i : nat) (b : Z) :
  calculateRetryDelay i b true = Z.min (b * 2 ^ Z.of_nat i) 30000 /\
  calculateRetryDelay i b true <= 30000 /\
  calculateRetryDelay i b false = b /\
  calculateRetryDelay 0 1000 true = 1000 /\
  calculateRetryDelay 1 1000 true = 2000 /\
  calculateRetryDelay 2 1000 true = 4000.
Proof.
  unfold calculateRetryDelay, MAX_DELAY_MS.
  repeat split; try reflexivity. apply Z.le_min_r.
Qed.

Section Loop.
Context {St E A : Type}.
Variable operation : St -> Result E A * St.
Variable opts : RetryOptions.

Lemma stateAfter_shift (i : nat) (s : St) :
  stateAfter operation (S i) s = stateAfter operation i (snd (operation s)).
Proof.
  induction i as [|i IH]; [reflexivity|].
  change (stateAfter operation (S (S i)) s)
    with (snd (operation (stateAfter operation (S i) s))).
  rewrite IH. reflexivity.
Qed.

Lemma invocation_shift (i : nat) (s : St) :
  invocation operation (S i) s = invocation operation i (snd (operation s)).
Proof. unfold invocation. rewrite stateAfter_shift. reflexivity. Qed.

(** What one run of the loop does, in terms of the successive
    invocations of the operation: it stops at the first invocation [k]
    that succeeds, or at invocation [left] when all throw. *)
Lemma attemptLoop_run (left : nat) :
  forall attempt s waits,
    let run := attemptLoop operation opts left attempt s waits in
    exists k : nat,
      (k <= left)%nat /\
      final run = stateAfter operation (S k) s /\
      Forall (fun j => isThrow (invocation operation j s)) (seq 0 k) /\
      match outcome run with
      | Ok (v, attempts) =>
          invocation operation k s = Ok v /\ attempts = (attempt + k + 1)%nat
      | Throw e => k = left /\ invocation operation k s = Throw e
      end.
Proof.
  induction left as [|left IH]; intros attempt s waits; simpl.
  - exists 0%nat. unfold invocation. simpl.
    destruct (operation s) as [[v|e] s']; simpl;
      repeat split; auto with lia.
  - destruct (operation s) as [[v|e] s'] eqn:Hop; simpl.
    + exists 0%nat. unfold invocation. simpl. rewrite Hop. simpl.
      repeat split; auto with lia.
    + specialize (IH (S attempt) s'
                     (waits ++ [calculateRetryDelay attempt (retryDelay opts) (exponential opts)])).
      simpl in IH. destruct IH as (k & Hk & Hfin & Hthrows & Hout).
      exists (S k).
      assert (Hs' : s' = snd (operation s)) by (rewrite Hop; reflexivity).
      split; [lia|]. split.
      { rewrite Hfin, Hs'. symmetry. apply stateAfter_shift. }
      split.
      { change (seq 0 (S k)) with (0%nat :: seq 1 k).
        constructor.
        - unfold invocation. simpl. rewrite Hop. exact I.
        - rewrite <- seq_shift. rewrite Forall_map.
          eapply Forall_impl; [exact Hthrows|].
          intros j Hj. simpl. rewrite invocation_shift, <- Hs'. exact Hj. }
      rewrite invocation_shift, <- Hs'.
      destruct (outcome _) as [[v attempts]|e'].
      * destruct Hout as [-> ->]. split; [reflexivity|lia].
      * destruct Hout as [-> ->]. split; reflexivity.
Qed.

End Loop.

(** C3. [withRetry] invokes the operation [k + 1] times for some
    [k <= retries] (so at most [retries + 1] times), every invocation
    before the last one having thrown.  If it returns, the value is the
    one the last invocation returned and [attempts] is the 1-based number
    of that invocation; if it throws, all [retries + 1] invocations threw
    and the error is the very one the last invocation threw.  The
    operation that fails twice and then succeeds gives [attempts = 3];
    the one that always fails, with two retries, is called three times
    and its own message comes out. *)
Theorem withRetry_spec {St E A : Type} (operation : St -> Result E A * St)
    (opts : RetryOptions) (s : St) (anyMode : bool) :
  (let run := withRetry operation opts s in
   exists k : nat,
     (k <= retries opts)%nat /\
     final run = stateAfter operation (S k) s /\
     Forall (fun j => isThrow (invocation operation j s)) (seq 0 k) /\
     match outcome run with
     | Ok (v, attempts) =>
         invocation operation k s = Ok v /\ attempts = (k + 1)%nat
     | Throw e =>
         k = retries opts /\ invocation operation k s = Throw e
     end) /\
  outcome (withRetry failsTwice
             {| retries := 5; retryDelay := 10; exponential := anyMode |} 0)
    = Ok ("ok"%string, 3%nat) /\
  (let run := withRetry alwaysFails
                {| retries := 2; retryDelay := 10; exponential := anyMode |} 0 in
   outcome run = Throw "always fails"%string /\ final run = 3).
Proof.
  split; [|split; [reflexivity | split; reflexivity]].
  exact (attemptLoop_run operation opts (retries opts) 0%nat s []).
Qed.

End RetryFacts.

Module ClassifierFacts.
Import Classifier.

(** The identifier check on the strings of the test file. *)
Example isValidUUIDFormatSync_samples :
  isValidUUIDFormatSync "069a79f4-44e9-4726-a5be-fca90e38aaf5" = true /\
  isValidUUIDFormatSync "069A79F4-44E9-4726-A5BE-FCA90E38AAF5" = true /\
  isValidUUIDFormatSync "069a79f444e94726a5befca90e38aaf5" = false /\
  isValidUUIDFormatSync "" = false /\
  isValidUUIDFormatSync "not-a-uuid" = false.
Proof. repeat split; reflexivity. Qed.

Lemma forallb_all_valid (players : list Player) :
  Forall (fun p => isValidUUIDFormatSync (player_id p) = true) players ->
  forallb (fun p => isValidUUIDFormatSync (player_id p)) players = true.
Proof.
  induction 1 as [|p ps Hp _ IH]; simpl; [reflexivity|].
  rewrite Hp, IH. reflexivity.
Qed.

Lemma forallb_some_invalid (players : list Player) :
  Exists (fun p => isValidUUIDFormatSync (player_id p) = false) players ->
  forallb (fun p => isValidUUIDFormatSync (player_id p)) players = false.
Proof.
  induction 1 as [p ps Hp|p ps _ IH]; simpl.
  - rewrite Hp. reflexivity.
  - rewrite IH. apply andb_false_r.
Qed.

(** C8. The classifier answers [unknown] on the empty list, [online] on a
    non-empty list whose identifiers are all well formed, [unknown] on a
    list with at least one malformed identifier, and [offline] on no
    list at all. *)
Theorem detectServerModeSync_spec (allValid someBad any : list Player) :
  allValid <> [] ->
  Forall (fun p => isValidUUIDFormatSync (player_id p) = true) allValid ->
  Exists (fun p => isValidUUIDFormatSync (player_id p) = false) someBad ->
  detectServerModeSync [] = unknown /\
  detectServerModeSync allValid = online /\
  detectServerModeSync someBad = unknown /\
  detectServerModeSync any <> offline.
Proof.
  intros Hne Hall Hbad. split; [reflexivity|]. split; [|split].
  - unfold detectServerModeSync. destruct allValid as [|p ps]; [congruence|].
    rewrite forallb_all_valid by assumption. reflexivity.
  - unfold detectServerModeSync. destruct someBad as [|p ps]; [reflexivity|].
    rewrite forallb_some_invalid by assumption. reflexivity.
  - unfold detectServerModeSync. destruct any as [|p ps]; [discriminate|].
    destruct (forallb _ _); discriminate.
Qed.

Lemma detectServerModeSync_spec_witness :
  detectServerModeSync [] = unknown /\
  detectServerModeSync [notch] = online /\
  detectServerModeSync [notch; fake] = unknown /\
  detectServerModeSync [fake] <> offline.
Proof.
  apply (detectServerModeSync_spec [notch] [notch; fake] [fake]).
  - discriminate.
  - repeat constructor.
  - apply Exists_cons_tl, Exists_cons_hd. reflexivity.
Defined.

End ClassifierFacts.

Module DepthGuardFacts.
Import DepthGuard.

(** Induction over a JSON value and, through its containers, over all the
    values below it. *)
Lemma Json_induction (P : Json -> Prop) :
  P JNull -> P JUndefined -> (forall b, P (JBool b)) ->
  (forall z, P (JNumber z)) -> (forall s, P (JString s)) ->
  (forall items, Forall P items -> P (JArray items)) ->
  (forall fields, Forall (fun kv => P (snd kv)) fields -> P (JObject fields)) ->
  forall v, P v.
Proof.
  intros Hnull Hundef Hbool Hnum Hstr Harr Hobj.
  fix IH 1.
  intros [| |b|z|s|items|fields];
    [exact Hnull | exact Hundef | apply Hbool | apply Hnum | apply Hstr | | ].
  - apply Harr. induction items as [|x xs IHxs]; constructor; [apply IH | exact IHxs].
  - apply Hobj. induction fields as [|[k x] xs IHxs]; constructor; [apply IH | exact IHxs].
Qed.

Lemma maxOf_agree {X : Type} (f g : X -> nat) (l : list X) :
  Forall (fun x => f x = g x) l -> maxOf (map f l) = maxOf (map g l).
Proof.
  induction 1 as [|x xs Hx _ IH]; simpl; [reflexivity|].
  unfold maxOf in *. simpl. rewrite Hx, IH. reflexivity.
Qed.

Lemma maxOf_min {X : Type} (f : X -> nat) (c : nat) (l : list X) :
  maxOf (map (fun x => Nat.min (f x) c) l) = Nat.min (maxOf (map f l)) c.
Proof.
  induction l as [|x xs IH]; unfold maxOf in *; simpl; [reflexivity|].
  rewrite IH. lia.
Qed.

Lemma maxOf_bound (l : list nat) (c : nat) :
  (maxOf l <= c)%nat -> Forall (fun x => (x <= c)%nat) l.
Proof.
  induction l as [|x xs IH]; unfold maxOf in *; simpl; intros H; constructor.
  - lia.
  - apply IH. lia.
Qed.

(** Measuring from [level] gives the nesting, cut at what is left of the
    budget. *)
Lemma depthFrom_min (v : Json) :
  forall level, (level <= MAX_JSON_DEPTH)%nat ->
    depthFrom level v = Nat.min (nesting v) (S MAX_JSON_DEPTH - level).
Proof.
  induction v as [| | | | |items IH|fields IH] using Json_induction;
    intros level Hl; try reflexivity.
  - cbn [depthFrom nesting].
    destruct (Nat.leb_spec MAX_JSON_DEPTH level) as [Hge|Hlt].
    + replace (S MAX_JSON_DEPTH - level)%nat with 1%nat by lia. lia.
    + rewrite (maxOf_agree (depthFrom (S level))
                 (fun x => Nat.min (nesting x) (MAX_JSON_DEPTH - level))).
      * rewrite maxOf_min. lia.
      * eapply Forall_impl; [exact IH|]. intros x Hx. cbv beta in Hx.
        rewrite Hx by lia. f_equal.
  - cbn [depthFrom nesting].
    destruct (Nat.leb_spec MAX_JSON_DEPTH level) as [Hge|Hlt].
    + replace (S MAX_JSON_DEPTH - level)%nat with 1%nat by lia. lia.
    + rewrite (maxOf_agree (fun kv => depthFrom (S level) (snd kv))
                 (fun kv => Nat.min (nesting (snd kv)) (MAX_JSON_DEPTH - level))).
      * rewrite (maxOf_min (fun kv => nesting (snd kv))). lia.
      * eapply Forall_impl; [exact IH|]. intros x Hx. cbv beta in Hx.
        rewrite Hx by lia. f_equal.
Qed.

(** Nothing below the level of the budget is looked at. *)
Lemma depthFrom_prune (v : Json) :
  forall level k, (level + k = MAX_JSON_DEPTH)%nat ->
    depthFrom level (prune k v) = depthFrom level v.
Proof.
  induction v as [| | | | |items IH|fields IH] using Json_induction;
    intros level k Hk; try reflexivity.
  - destruct k as [|k]; cbn [prune depthFrom].
    + destruct (Nat.leb_spec MAX_JSON_DEPTH level); [reflexivity | lia].
    + destruct (MAX_JSON_DEPTH <=? level)%nat; [reflexivity|].
      f_equal. rewrite map_map. apply maxOf_agree.
      eapply Forall_impl; [exact IH|]. intros x Hx. apply Hx. lia.
  - destruct k as [|k]; cbn [prune depthFrom].
    + destruct (Nat.leb_spec MAX_JSON_DEPTH level); [reflexivity | lia].
    + destruct (MAX_JSON_DEPTH <=? level)%nat; [reflexivity|].
      f_equal. rewrite map_map. apply maxOf_agree.
      eapply Forall_impl; [exact IH|]. intros x Hx. cbn [snd]. apply Hx. lia.
Qed.

Lemma nesting_children (c : Json) :
  isScalar c = false -> nesting c = S (maxOf (map nesting (children c))).
Proof.
  destruct c; try discriminate; intros _; simpl; [reflexivity|].
  rewrite map_map. reflexivity.
Qed.

Lemma nesting_nest (k : nat) : nesting (nest k) = k.
Proof.
  induction k as [|k IH]; [reflexivity|].
  simpl. unfold maxOf. simpl. rewrite IH. lia.
Qed.

(** The depths the test file expects of small values. *)
Example getJsonDepth_samples :
  getJsonDepth (JObject [("a", JObject [("b", JNumber 1)])]%string) = 2%nat /\
  getJsonDepth (JObject [("a", JObject [("b", JObject [("c", JNumber 1)])])]%string) = 3%nat /\
  getJsonDepth (JObject [("a", JArray [JObject [("b", JNumber 1)]])]%string) = 3%nat /\
  getJsonDepth (JBool true) = 0%nat /\ getJsonDepth (JNumber 42) = 0%nat.
Proof. repeat split; reflexivity. Qed.

(** C9. A scalar, null or undefined measures 0.  A container whose
    nesting stays within the cap measures one more than the deepest of its
    children, and an empty container measures 1.  In general the measure
    is the nesting cut at [MAX_JSON_DEPTH + 1 = 33], it is the same as the
    measure of the value with everything below level [MAX_JSON_DEPTH]
    removed, and so the structure nested 50 deep measures at most 33. *)
Theorem getJsonDepth_spec (scalar container any : Json) :
  isScalar scalar = true ->
  isScalar container = false ->
  (nesting container <= S MAX_JSON_DEPTH)%nat ->
  getJsonDepth scalar = 0%nat /\
  getJsonDepth JNull = 0%nat /\ getJsonDepth JUndefined = 0%nat /\
  getJsonDepth container
    = S (maxOf (map getJsonDepth (children container))) /\
  getJsonDepth (JArray []) = 1%nat /\ getJsonDepth (JObject []) = 1%nat /\
  getJsonDepth any = Nat.min (nesting any) 33 /\
  getJsonDepth any = getJsonDepth (prune MAX_JSON_DEPTH any) /\
  (getJsonDepth any <= 33)%nat /\
  nesting (nest 50) = 50%nat /\
  (getJsonDepth (nest 50) <= 33)%nat.
Proof.
  intros Hs Hc Hcap.
  assert (Hmin : forall v, getJsonDepth v = Nat.min (nesting v) 33).
  { intros v. unfold getJsonDepth. rewrite depthFrom_min by (unfold MAX_JSON_DEPTH; lia).
    reflexivity. }
  split; [destruct scalar; try discriminate; reflexivity|].
  do 2 (split; [reflexivity|]).
  split.
  { rewrite Hmin, nesting_children by assumption.
    rewrite nesting_children in Hcap by assumption.
    rewrite (maxOf_agree getJsonDepth nesting).
    - unfold MAX_JSON_DEPTH in Hcap. lia.
    - assert (Hb : Forall (fun x => (x <= MAX_JSON_DEPTH)%nat)
                     (map nesting (children container))).
      { apply maxOf_bound. lia. }
      rewrite Forall_map in Hb. eapply Forall_impl; [exact Hb|].
      intros x Hx. simpl in Hx. rewrite Hmin. unfold MAX_JSON_DEPTH in Hx. lia. }
  do 2 (split; [reflexivity|]).
  split; [apply Hmin|].
  split; [unfold getJsonDepth; symmetry; apply depthFrom_prune; reflexivity|].
  split; [rewrite Hmin; lia|].
  split; [apply nesting_nest|].
  rewrite Hmin. lia.
Qed.

Lemma getJsonDepth_spec_witness :
  getJsonDepth (JString "str") = 0%nat /\
  getJsonDepth (JObject [("a", JArray [JObject [("b", JNumber 1)]])]%string)
    = S (maxOf (map getJsonDepth [JArray [JObject [("b", JNumber 1)]%string]])) /\
  getJsonDepth (nest 50) = Nat.min (nesting (nest 50)) 33.
Proof.
  destruct (getJsonDepth_spec (JString "str")
              (JObject [("a", JArray [JObject [("b", JNumber 1)]])]%string)
              (nest 50))
    as (H0 & _ & _ & H1 & _ & _ & H2 & _).
  - reflexivity.
  - reflexivity.
  - vm_compute. lia.
  - split; [exact H0|]. split; [exact H1 | exact H2].
Defined.

End DepthGuardFacts.

Module RegistryFacts.
Import RedisLayer AgentService AgentRoutes RegistrySpec.

(** *** Identifier format *)

Lemma isIdChar_alphabet (c : ascii) :
  isIdChar c = existsb (Ascii.eqb c) idAlphabet.
Proof.
  destruct c as [b0 b1 b2 b3 b4 b5 b6 b7].
  destruct b0, b1, b2, b3, b4, b5, b6, b7; vm_compute; reflexivity.
Qed.

Lemma isIdChar_In (c : ascii) : isIdChar c = true <-> In c idAlphabet.
Proof.
  rewrite isIdChar_alphabet, existsb_exists. split.
  - intros (x & Hx & Heq). apply Ascii.eqb_eq in Heq. subst. exact Hx.
  - intros H. exists c. split; [exact H | apply Ascii.eqb_refl].
Qed.

Lemma allChars_Forall (s : string) :
  allChars isIdChar s = true <->
  Forall (fun c => In c idAlphabet) (list_ascii_of_string s).
Proof.
  induction s as [|c s IH]; simpl.
  - split; [constructor | reflexivity].
  - rewrite andb_true_iff, IH, isIdChar_In. split.
    + intros [H1 H2]. constructor; assumption.
    + intros H. inversion H; subst. split; assumption.
Qed.

Lemma isValidAgentId_WellFormed (s : string) :
  isValidAgentId s = true <-> WellFormedId s.
Proof.
  unfold isValidAgentId, WellFormedId, matchesIdPattern.
  rewrite !andb_true_iff, !Nat.leb_le. destruct s as [|c s].
  - simpl. split; [intros [[? _] _]; discriminate | intros [? _]; lia].
  - rewrite allChars_Forall. tauto.
Qed.

(** *** The cache wrapper *)

Lemma getRedisClient_ready (c : RedisConn) :
  clientReady c = true -> getRedisClient c = (Some ready, c).
Proof.
  unfold clientReady, getRedisClient. destruct c as [[[| |]|] [] ? ? ?]; simpl;
    try discriminate. reflexivity.
Qed.

Lemma getRedisClient_not_ready (c : RedisConn) :
  clientReady c = false ->
  isReady (fst (getRedisClient c)) = false /\
  clientReady (snd (getRedisClient c)) = false /\
  commandRejects (snd (getRedisClient c)) = commandRejects c.
Proof.
  unfold clientReady, getRedisClient.
  destruct c as [[[| |]|] [] [] [] ?]; simpl; try discriminate; auto.
Qed.

Lemma safeRedisCommand_usable {T : Type} (command : RedisData -> T * RedisData)
    (fallback : option T) (c : RedisConn) (d : RedisData) :
  cacheUsable c = true ->
  safeRedisCommand command fallback c d
    = (Some (fst (command d)), c, snd (command d)).
Proof.
  unfold cacheUsable. rewrite andb_true_iff, negb_true_iff. intros [Hr Hc].
  unfold safeRedisCommand. rewrite (getRedisClient_ready c Hr). simpl.
  rewrite Hc. destruct (command d). reflexivity.
Qed.

Lemma safeRedisCommand_unusable {T : Type} (command : RedisData -> T * RedisData)
    (fallback : option T) (c : RedisConn) (d : RedisData) :
  cacheUsable c = false ->
  exists c', safeRedisCommand command fallback c d = (fallback, c', d) /\
             clientReady c' = clientReady c /\
             commandRejects c' = commandRejects c.
Proof.
  unfold cacheUsable, safeRedisCommand. intros Hu.
  destruct (clientReady c) eqn:Hr.
  - rewrite (getRedisClient_ready c Hr). simpl in *.
    rewrite negb_false_iff in Hu. rewrite Hu. exists c. auto.
  - destruct (getRedisClient_not_ready c Hr) as (H1 & H2 & H3).
    destruct (getRedisClient c) as [client c']. simpl in *.
    rewrite H1. simpl. exists c'. auto.
Qed.

Lemma isRedisAvailable_clientReady (c : RedisConn) :
  fst (isRedisAvailable c) = clientReady c.
Proof.
  unfold isRedisAvailable. destruct (clientReady c) eqn:Hr.
  - rewrite (getRedisClient_ready c Hr). reflexivity.
  - destruct (getRedisClient_not_ready c Hr) as (H1 & _).
    destruct (getRedisClient c). exact H1.
Qed.

(** *** Cache commands *)

Lemma expire_online (key : string) (ttl : Z) (d : RedisData) :
  AGENTS_ONLINE (expire key ttl d) = AGENTS_ONLINE d.
Proof. unfold expire. destruct (AGENT_DATA d !! key) as [[h t]|]; reflexivity. Qed.

Lemma expire_heartbeat (key : string) (ttl : Z) (d : RedisData) :
  AGENT_HEARTBEAT (expire key ttl d) = AGENT_HEARTBEAT d.
Proof. unfold expire. destruct (AGENT_DATA d !! key) as [[h t]|]; reflexivity. Qed.

Lemma registerPipeline_online (agentId agentName : string) (now : Z) (d : RedisData) :
  AGENTS_ONLINE (snd (registerPipeline agentId agentName now d))
    = {[agentId]} ∪ AGENTS_ONLINE d.
Proof. unfold registerPipeline. cbn [snd]. rewrite expire_online. reflexivity. Qed.

Lemma registerPipeline_heartbeat (agentId agentName : string) (now : Z) (d : RedisData) :
  AGENT_HEARTBEAT (snd (registerPipeline agentId agentName now d))
    = <[agentId := (now, AGENT_TTL_SECONDS)]> (AGENT_HEARTBEAT d).
Proof. unfold registerPipeline. cbn [snd]. rewrite expire_heartbeat. reflexivity. Qed.

Lemma removePipeline_cache (agentId : string) (d : RedisData) :
  snd (removePipeline agentId d)
    = {| AGENTS_ONLINE := AGENTS_ONLINE d ∖ {[agentId]};
         AGENT_HEARTBEAT := delete agentId (AGENT_HEARTBEAT d);
         AGENT_DATA := delete agentId (AGENT_DATA d) |}.
Proof. reflexivity. Qed.

(** *** Registration *)

(** C5. [registerAgent] throws the invalid-identifier error exactly when
    the id is not 1 to 100 characters of letters, digits, dashes and
    underscores, and then changes nothing.  Otherwise it returns normally,
    whatever the state of the cache and of its connection, and the durable
    row of the id has status idle, heartbeat [now] and no assignment; the
    other rows are as before, and a cache that cannot be written is left
    as it was. *)
Theorem registerAgent_spec (parseInt10 : string -> Z) (numberToString : Z -> string)
    (w : World) (now : Z) (agentId : string) (name : option string) :
  let '(res, w') := registerAgent parseInt10 numberToString w now agentId name in
  (res = Throw "Invalid agentId format"%string <-> ¬ WellFormedId agentId) /\
  if isValidAgentId agentId then
    res = Ok {| r_agentId := agentId;
                r_agentName := resolveName parseInt10 numberToString agentId name |} /\
    (exists row, db w' !! agentId = Some row /\
                 a_status row = "idle"%string /\
                 a_lastHeartbeat row = now /\
                 a_currentQueueId row = None /\
                 a_name row = resolveName parseInt10 numberToString agentId name) /\
    (forall other, other <> agentId -> db w' !! other = db w !! other) /\
    (if cacheUsable (conn w)
     then agentId ∈ AGENTS_ONLINE (cache w') /\
          AGENT_HEARTBEAT (cache w') !! agentId = Some (now, AGENT_TTL_SECONDS)
     else cache w' = cache w)
  else res = Throw "Invalid agentId format"%string /\ w' = w.
Proof.
  unfold registerAgent.
  pose proof (isValidAgentId_WellFormed agentId) as Hwf.
  destruct (isValidAgentId agentId) eqn:Hv; simpl.
  - destruct (safeRedisCommand _ _ _ _) as [[r c] d] eqn:Hs.
    split; [split; [discriminate | intros Hn; exfalso; apply Hn; apply Hwf; reflexivity]|].
    split; [reflexivity|]. split; [|split].
    + unfold upsertAgent. simpl.
      destruct (db w !! agentId) as [old|];
        (eexists; split; [apply lookup_insert_eq | repeat split]).
    + intros other Hne. unfold upsertAgent. simpl.
      destruct (db w !! agentId); rewrite lookup_insert_ne by congruence; reflexivity.
    + simpl. destruct (cacheUsable (conn w)) eqn:Hu.
      * rewrite safeRedisCommand_usable in Hs by exact Hu.
        assert (Hd : d = snd (registerPipeline agentId
                                (resolveName parseInt10 numberToString agentId name)
                                now (cache w))) by congruence.
        rewrite Hd, registerPipeline_online, registerPipeline_heartbeat.
        split; [apply elem_of_union_l, elem_of_singleton; reflexivity | apply lookup_insert_eq].
      * destruct (safeRedisCommand_unusable
                    (registerPipeline agentId
                       (resolveName parseInt10 numberToString agentId name) now)
                    None (conn w) (cache w) Hu) as (c' & Hc' & _).
        rewrite Hc' in Hs. injection Hs as _ _ <-. reflexivity.
  - split; [|split; reflexivity].
    split; [intros _ Hn; apply Hwf in Hn; congruence | reflexivity].
Qed.

(** *** Heartbeat *)

(** C6. For a request carrying the id [agentId]: a malformed id makes
    [updateHeartbeat] throw the invalid-identifier error and the handler
    answer 400; a well-formed id with no durable row makes it throw the
    not-registered error and the handler answer 404; otherwise the row's
    heartbeat becomes [now] and the handler answers 200 with [{ok:true}].
    In the two failing cases nothing changes. *)
Theorem heartbeat_spec (w : World) (now : Z) (agentId : string)
    (status currentQueueId : option string) :
  let '(res, w') := updateHeartbeat w now agentId status currentQueueId in
  let '(reply, w'') := heartbeatHandler w now (Some agentId) status currentQueueId in
  w'' = w' /\
  (isValidAgentId agentId = true <-> WellFormedId agentId) /\
  if isValidAgentId agentId then
    match db w !! agentId with
    | None =>
        res = Throw "Agent not registered"%string /\
        reply = Ok {| code := 404; payload := ErrorBody "Agent not registered" |} /\
        w' = w
    | Some _ =>
        res = Ok tt /\
        reply = Ok {| code := 200; payload := OkBody |} /\
        exists row, db w' !! agentId = Some row /\ a_lastHeartbeat row = now
    end
  else
    res = Throw "Invalid agentId format"%string /\
    (exists message, reply = Ok {| code := 400; payload := ErrorBody message |}) /\
    w' = w.
Proof.
  pose proof (isValidAgentId_WellFormed agentId) as Hwf.
  destruct agentId as [|c rest].
  - simpl. split; [reflexivity|]. split; [exact Hwf|].
    split; [reflexivity|]. split; [eexists; reflexivity | reflexivity].
  - unfold heartbeatHandler, updateHeartbeat.
    destruct (isValidAgentId (String c rest)) eqn:Hv; simpl.
    + destruct (db w !! String c rest) as [old|] eqn:Hold.
      * destruct (safeRedisCommand _ _ _ _) as [[r c'] d].
        split; [reflexivity|]. split; [exact Hwf|].
        split; [reflexivity|]. split; [reflexivity|].
        eexists. split; [apply lookup_insert_eq | reflexivity].
      * split; [reflexivity|]. split; [exact Hwf|].
        repeat split; reflexivity.
    + split; [reflexivity|]. split; [exact Hwf|].
      split; [reflexivity|]. split; [eexists; reflexivity | reflexivity].
Qed.

(** C10. A heartbeat on a registered agent that goes through leaves the
    row's name and registration time (and id and secret) as they were;
    the heartbeat time becomes [now]; the status changes only to a
    non-empty status that was supplied; the assignment changes only to
    one that was supplied; and no other row changes. *)
Theorem heartbeat_frame (w : World) (now : Z) (agentId : string)
    (status currentQueueId : option string) (old : Agent) :
  isValidAgentId agentId = true ->
  db w !! agentId = Some old ->
  let '(res, w') := updateHeartbeat w now agentId status currentQueueId in
  res = Ok tt /\
  (exists row,
      db w' !! agentId = Some row /\
      a_name row = a_name old /\
      a_registeredAt row = a_registeredAt old /\
      a_id row = a_id old /\
      a_secret row = a_secret old /\
      a_lastHeartbeat row = now /\
      a_status row = match status with
                     | None | Some EmptyString => a_status old
                     | Some st => st
                     end /\
      a_currentQueueId row = match currentQueueId with
                             | None => a_currentQueueId old
                             | Some q => Some q
                             end) /\
  (forall other, other <> agentId -> db w' !! other = db w !! other).
Proof.
  intros Hv Hold. unfold updateHeartbeat. rewrite Hv, Hold. simpl.
  destruct (safeRedisCommand _ _ _ _) as [[r c] d].
  split; [reflexivity|]. split.
  - eexists. split; [apply lookup_insert_eq|]. simpl.
    repeat split. destruct status as [[|ch st]|]; reflexivity.
  - intros other Hne. simpl. rewrite lookup_insert_ne by congruence. reflexivity.
Qed.

Lemma heartbeat_frame_witness :
  let w := {| db := {[ "agent-1"%string := staleAgent ]};
              conn := readyConn; cache := onlineOnly |} in
  exists row,
    db (snd (updateHeartbeat w 5000 "agent-1" (Some ""%string) None)) !! "agent-1"%string
      = Some row /\
    a_name row = "Agent 1"%string /\ a_registeredAt row = 0 /\
    a_status row = "busy"%string /\ a_lastHeartbeat row = 5000 /\
    a_currentQueueId row = Some "q-7"%string.
Proof.
  intros w.
  assert (Hv : isValidAgentId "agent-1" = true) by reflexivity.
  assert (Hold : db w !! "agent-1"%string = Some staleAgent) by reflexivity.
  pose proof (heartbeat_frame w 5000 "agent-1" (Some ""%string) None staleAgent Hv Hold)
    as H.
  destruct (updateHeartbeat w 5000 "agent-1" (Some ""%string) None) as [res w'].
  destruct H as (_ & (row & H1 & H2 & H3 & _ & _ & H6 & H7 & H8) & _).
  exists row. cbn [snd].
  split; [exact H1|]. split; [exact H2|]. split; [exact H3|].
  split; [exact H7|]. split; [exact H6 | exact H8].
Defined.

(** *** Removal *)

(** C7, as worded, fails when the cache cannot be reached: the id is well
    formed, [removeAgent] returns true, and the agent is still in the
    online set. *)
Lemma removeAgent_cache_down_counterexample :
  ¬ RemovesFromOnlineSet
      {| db := {[ "agent-1"%string := staleAgent ]}; conn := downConn; cache := onlineOnly |}
      "agent-1".
Proof.
  unfold RemovesFromOnlineSet. intros H.
  assert (Hin : "agent-1"%string ∈ AGENTS_ONLINE onlineOnly)
    by (unfold onlineOnly; cbn [AGENTS_ONLINE]; apply elem_of_singleton; reflexivity).
  exact (H eq_refl Hin).
Qed.

(** C7, amended. [removeAgent] returns false exactly when the id is
    malformed, and then changes nothing; the durable table is never
    changed.  On a well-formed id it returns true and, when the cache is
    usable, the id is out of the online set and its heartbeat and data
    keys are deleted, the other members staying; when the cache is not
    usable the cache is left as it was.  The handler answers 404 on false
    and 200 with [{ok:true}] on true. *)
Theorem removeAgent_spec (w : World) (agentId : string) :
  let '(success, w') := removeAgent w agentId in
  let '(reply, w'') := deleteHandler w agentId in
  (success = false <-> ¬ WellFormedId agentId) /\
  db w' = db w /\
  w'' = w' /\
  if success then
    reply = {| code := 200; payload := OkBody |} /\
    if cacheUsable (conn w) then
      (agentId ∉ AGENTS_ONLINE (cache w')) /\
      AGENT_HEARTBEAT (cache w') !! agentId = None /\
      AGENT_DATA (cache w') !! agentId = None /\
      (forall other, other <> agentId ->
         (other ∈ AGENTS_ONLINE (cache w') <-> other ∈ AGENTS_ONLINE (cache w)))
    else cache w' = cache w
  else
    reply = {| code := 404; payload := ErrorBody "Agent not found" |} /\ w' = w.
Proof.
  pose proof (isValidAgentId_WellFormed agentId) as Hwf.
  unfold deleteHandler, removeAgent.
  destruct (isValidAgentId agentId) eqn:Hv; simpl.
  - destruct (safeRedisCommand _ _ _ _) as [[r c] d] eqn:Hs. simpl.
    split; [split; [discriminate | intros Hn; exfalso; apply Hn; apply Hwf; reflexivity]|].
    do 3 (split; [reflexivity|]).
    destruct (cacheUsable (conn w)) eqn:Hu.
    + rewrite safeRedisCommand_usable in Hs by exact Hu.
      assert (Hd : d = snd (removePipeline agentId (cache w))) by congruence.
      rewrite Hd, removePipeline_cache. cbn [AGENTS_ONLINE AGENT_HEARTBEAT AGENT_DATA].
      split; [rewrite elem_of_difference, elem_of_singleton; tauto|].
      split; [apply lookup_delete_eq|]. split; [apply lookup_delete_eq|].
      intros other Hne. rewrite elem_of_difference, elem_of_singleton. tauto.
    + destruct (safeRedisCommand_unusable (removePipeline agentId) None
                  (conn w) (cache w) Hu) as (c' & Hc' & _).
      rewrite Hc' in Hs. congruence.
  - split; [split; [intros _ Hn; apply Hwf in Hn; congruence | reflexivity]|].
    repeat split; reflexivity.
Qed.

(** *** Listing *)

Lemma swept_lookup (now : Z) (table : gmap string Agent) (k : string) (a : Agent) :
  swept now table !! k = Some a <->
  table !! k = Some a /\ ¬ (a_lastHeartbeat a < now - HEARTBEAT_TIMEOUT_MS).
Proof. unfold swept. rewrite map_lookup_filter_Some. reflexivity. Qed.

Lemma removeOfflineAgents_db (w : World) (now : Z) :
  db (removeOfflineAgents w now)
    = (if clientReady (conn w) then db w else swept now (db w)) /\
  cache (removeOfflineAgents w now) = cache w.
Proof.
  unfold removeOfflineAgents.
  pose proof (isRedisAvailable_clientReady (conn w)) as Ha.
  destruct (isRedisAvailable (conn w)) as [available c]. simpl in Ha. subst available.
  destruct (clientReady (conn w)); split; reflexivity.
Qed.

Lemma fromDurable_offline (now : Z) (a : Agent) :
  l_offline (fromDurable now a) = true <-> now - a_lastHeartbeat a > HEARTBEAT_TIMEOUT_MS.
Proof. unfold fromDurable. cbn [l_offline]. rewrite Z.ltb_lt. lia. Qed.

(** What the fallback returns: the rows left after the sweep, which runs
    only without a ready client. *)
Lemma listDurable_run (w : World) (now sweepNow : Z) :
  let '(l, w') := listDurable w now sweepNow in
  cache w' = cache w /\
  db w' = (if clientReady (conn w) then db w else swept sweepNow (db w)) /\
  l = map (fun kv : string * Agent => fromDurable now kv.2) (map_to_list (db w')).
Proof.
  unfold listDurable.
  destruct (removeOfflineAgents_db w sweepNow) as [Hdb Hcache].
  split; [exact Hcache|]. split; [exact Hdb | reflexivity].
Qed.

(** C2, as worded, fails on a readable, non-empty online set whose member
    has no data hash left: the list comes from the durable table, and the
    row is reported as offline. *)
Lemma listOnlineAgents_fallback_counterexample :
  ¬ ListsOnlineSet
      {| db := {[ "agent-1"%string := staleAgent ]}; conn := readyConn; cache := onlineOnly |}
      100000 100000.
Proof.
  unfold ListsOnlineSet. intros H.
  destruct H as [_ Hall]; [reflexivity | vm_compute; discriminate |].
  vm_compute in Hall. inversion Hall as [|a l Hoff _]. discriminate Hoff.
Qed.

Lemma Forall2_map_graph {X Y : Type} (R : X -> Y -> Prop) (f : X -> Y) (l : list X) :
  (forall x, R x (f x)) -> Forall2 R l (map f l).
Proof. intros HR. induction l as [|x xs IH]; simpl; constructor; auto. Qed.

(** C2, amended. [listOnlineAgents] never changes the cache.  When the
    cache is usable and at least one member of the online set has a data
    hash with keys, it returns one entry per such hash, built from the
    hash and marked online, and leaves the durable table alone.  In every
    other case (cache unusable, online set empty, no member with a hash)
    it returns the rows of the durable table, each marked offline exactly
    when [now - lastHeartbeat] exceeds 60 seconds, after a sweep of the
    rows older than the timeout that runs only when no ready client is
    available. *)
Theorem listOnlineAgents_spec (w : World) (now sweepNow : Z) :
  let '(l, w') := listOnlineAgents w now sweepNow in
  cache w' = cache w /\
  match (if cacheUsable (conn w) then cachedHashes (cache w) else []) with
  | h :: hs =>
      l = map (fromCache now) (h :: hs) /\
      Forall (fun a => l_offline a = false) l /\
      db w' = db w
  | [] =>
      db w' = (if clientReady (conn w) then db w else swept sweepNow (db w)) /\
      l = map (fun kv : string * Agent => fromDurable now kv.2) (map_to_list (db w')) /\
      Forall2 (fun (kv : string * Agent) a =>
                 l_id a = Some (a_id kv.2) /\
                 (l_offline a = true <-> now - a_lastHeartbeat kv.2 > 60000))
              (map_to_list (db w')) l
  end.
Proof.
  assert (Hfallback : forall c,
    clientReady c = clientReady (conn w) ->
    let '(l, w') := listDurable {| db := db w; conn := c; cache := cache w |} now sweepNow in
    cache w' = cache w /\
    db w' = (if clientReady (conn w) then db w else swept sweepNow (db w)) /\
    l = map (fun kv : string * Agent => fromDurable now kv.2) (map_to_list (db w')) /\
    Forall2 (fun (kv : string * Agent) a =>
               l_id a = Some (a_id kv.2) /\
               (l_offline a = true <-> now - a_lastHeartbeat kv.2 > 60000))
            (map_to_list (db w')) l).
  { intros c Hc.
    pose proof (listDurable_run {| db := db w; conn := c; cache := cache w |} now sweepNow)
      as Hrun.
    destruct (listDurable _ now sweepNow) as [l w']. cbn [db conn cache] in Hrun.
    destruct Hrun as (H1 & H2 & H3). rewrite Hc in H2.
    split; [exact H1|]. split; [exact H2|]. split; [exact H3|].
    rewrite H3. apply Forall2_map_graph. intros kv. split; [reflexivity|].
    apply fromDurable_offline. }
  unfold listOnlineAgents.
  destruct (cacheUsable (conn w)) eqn:Hu.
  - rewrite safeRedisCommand_usable by exact Hu. cbn [fst snd].
    unfold cachedHashes.
    destruct (smembers (cache w)) as [|i ids] eqn:Hm.
    + cbn [map List.filter].
      specialize (Hfallback (conn w) eq_refl).
      destruct (listDurable _ now sweepNow) as [l w'].
      destruct Hfallback as (H1 & H2 & H3 & H4). auto.
    + rewrite safeRedisCommand_usable by exact Hu.
      unfold readHashes. cbn [fst snd].
      destruct (List.filter hashHasKeys (map (fun i0 => hgetall i0 (cache w)) (i :: ids)))
        as [|h hs] eqn:Hh.
      * specialize (Hfallback (conn w) eq_refl).
        destruct (listDurable _ now sweepNow) as [l w'].
        destruct Hfallback as (H1 & H2 & H3 & H4). auto.
      * cbn [cache db]. split; [reflexivity|]. split; [reflexivity|].
        split; [|reflexivity].
        rewrite Forall_map. apply Forall_true. intros x. reflexivity.
  - destruct (safeRedisCommand_unusable (fun d => (smembers d, d)) None
                (conn w) (cache w) Hu) as (c' & Hc' & Hr & _).
    rewrite Hc'.
    specialize (Hfallback c' Hr).
    destruct (listDurable _ now sweepNow) as [l w'].
    destruct Hfallback as (H1 & H2 & H3 & H4). auto.
Qed.

End RegistryFacts.

(* ===================================================================== *)
(** ** Further properties of the cache layer, the service and the routes  *)
(* ===================================================================== *)

Module RedisKeysFacts.

Lemma list_ascii_of_append (a b : string) :
  list_ascii_of_string (a +:+ b) = list_ascii_of_string a ++ list_ascii_of_string b.
Proof. induction a as [|c a IH]; simpl; [reflexivity | rewrite IH; reflexivity]. Qed.

Lemma list_ascii_inj (a b : string) :
  list_ascii_of_string a = list_ascii_of_string b -> a = b.
Proof.
  intros H. apply (f_equal string_of_list_ascii) in H.
  rewrite !string_of_list_ascii_of_string in H. exact H.
Qed.

Lemma append_inj_prefix (p a b : string) : p +:+ a = p +:+ b -> a = b.
Proof. induction p as [|c p IH]; simpl; [auto | intros [= H]; auto]. Qed.

Lemma append_inj_suffix (s a b : string) : a +:+ s = b +:+ s -> a = b.
Proof.
  intros H. apply list_ascii_inj.
  apply (f_equal list_ascii_of_string) in H. rewrite !list_ascii_of_append in H.
  exact (app_inv_tail _ _ _ H).
Qed.

(** Two strings whose last characters differ are different, whatever
    stands before them. *)
Lemma append_last_differs (a b s t : string) (x y : ascii) :
  x <> y -> a +:+ (s +:+ String x EmptyString) <> b +:+ (t +:+ String y EmptyString).
Proof.
  intros Hxy H. apply (f_equal list_ascii_of_string) in H.
  rewrite !list_ascii_of_append in H. simpl in H. rewrite !app_assoc in H.
  apply app_inj_tail in H. destruct H as [_ H]. congruence.
Qed.

(** The keys of the three agent families and of the queue never collide,
    whatever the ids are: each family is injective in the id, and no key of
    one family is a key of another or one of the fixed keys. *)
Theorem redis_keys_never_collide (a b : string) :
  (REDIS_KEYS.AGENT_HEARTBEAT a = REDIS_KEYS.AGENT_HEARTBEAT b -> a = b) /\
  (REDIS_KEYS.AGENT_DATA a = REDIS_KEYS.AGENT_DATA b -> a = b) /\
  (REDIS_KEYS.QUEUE_ITEM a = REDIS_KEYS.QUEUE_ITEM b -> a = b) /\
  REDIS_KEYS.AGENT_HEARTBEAT a <> REDIS_KEYS.AGENT_DATA b /\
  REDIS_KEYS.AGENT_HEARTBEAT a <> REDIS_KEYS.QUEUE_ITEM b /\
  REDIS_KEYS.AGENT_DATA a <> REDIS_KEYS.QUEUE_ITEM b /\
  Forall (fun fixed =>
            REDIS_KEYS.AGENT_HEARTBEAT a <> fixed /\
            REDIS_KEYS.AGENT_DATA a <> fixed /\
            REDIS_KEYS.QUEUE_ITEM a <> fixed)
         [REDIS_KEYS.AGENTS_ONLINE; REDIS_KEYS.QUEUE_PENDING;
          REDIS_KEYS.QUEUE_PROCESSING; REDIS_KEYS.QUEUE_DUPLICATES].
Proof.
  unfold REDIS_KEYS.AGENT_HEARTBEAT, REDIS_KEYS.AGENT_DATA, REDIS_KEYS.QUEUE_ITEM.
  split; [intros H; apply append_inj_prefix in H; exact (append_inj_suffix _ _ _ H)|].
  split; [intros H; apply append_inj_prefix in H; exact (append_inj_suffix _ _ _ H)|].
  split; [apply append_inj_prefix|].
  split.
  { intros H. apply append_inj_prefix in H.
    exact (append_last_differs a b ":heartbea" ":dat" "t" "a" ltac:(discriminate) H). }
  split; [simpl; discriminate|]. split; [simpl; discriminate|].
  repeat constructor; simpl; discriminate.
Qed.

End RedisKeysFacts.

Module DashboardFacts.
Import Dashboard.

(** [formatRelativeTime] answers "Just now" for anything less than a minute
    old, dates in the future included; a count of minutes is between 1 and
    59, of hours between 1 and 23, of days between 1 and 6, each the
    age rounded down to the unit; and the date itself is shown from seven
    days on. *)
Theorem formatRelativeTime_ranges (now date : Z) :
  match formatRelativeTime now date with
  | JustNow => now - date < 60000
  | MinutesAgo n => 1 <= n <= 59 /\ 60000 * n <= now - date < 60000 * (n + 1)
  | HoursAgo n => 1 <= n <= 23 /\ 3600000 * n <= now - date < 3600000 * (n + 1)
  | DaysAgo n => 1 <= n <= 6 /\ 86400000 * n <= now - date < 86400000 * (n + 1)
  | LocaleDate d => d = date /\ 7 * 86400000 <= now - date
  end.
Proof.
  unfold formatRelativeTime.
  set (diff := now - date).
  pose proof (Z.div_mod diff 60000 ltac:(lia)) as H1.
  pose proof (Z.mod_pos_bound diff 60000 ltac:(lia)) as H1'.
  pose proof (Z.div_mod diff 3600000 ltac:(lia)) as H2.
  pose proof (Z.mod_pos_bound diff 3600000 ltac:(lia)) as H2'.
  pose proof (Z.div_mod diff 86400000 ltac:(lia)) as H3.
  pose proof (Z.mod_pos_bound diff 86400000 ltac:(lia)) as H3'.
  destruct (Z.ltb_spec (diff / 60000) 1); [lia|].
  destruct (Z.ltb_spec (diff / 60000) 60); [lia|].
  destruct (Z.ltb_spec (diff / 3600000) 24); [lia|].
  destruct (Z.ltb_spec (diff / 86400000) 7); [lia|].
  lia.
Qed.

End DashboardFacts.

Module ServiceRuns.
Import RedisLayer AgentService AgentRoutes RegistrySpec RedisLifecycle AgentCount.
Import RegistryFacts.

(** *** The connection *)

Lemma getRedisClient_settles (c : RedisConn) :
  let c' := snd (getRedisClient c) in
  snd (getRedisClient c') = c' /\
  clientReady c' = clientReady c /\
  commandRejects c' = commandRejects c /\
  cacheUsable c' = cacheUsable c /\
  (clientReady c = true -> c' = c).
Proof.
  unfold cacheUsable, clientReady, getRedisClient.
  destruct c as [[[| |]|] [] [] [] []]; simpl; repeat split; auto; discriminate.
Qed.

Lemma safeRedisCommand_run {T : Type} (command : RedisData -> T * RedisData)
    (fallback : option T) (c : RedisConn) (d : RedisData) :
  safeRedisCommand command fallback c d
    = (if cacheUsable c then Some (fst (command d)) else fallback,
       snd (getRedisClient c),
       if cacheUsable c then snd (command d) else d).
Proof.
  destruct (cacheUsable c) eqn:Hu.
  - rewrite safeRedisCommand_usable by exact Hu.
    unfold cacheUsable in Hu. apply andb_true_iff in Hu. destruct Hu as [Hr _].
    rewrite (getRedisClient_ready c Hr). reflexivity.
  - unfold cacheUsable, clientReady, safeRedisCommand, getRedisClient in *.
    destruct c as [[[| |]|] [] [] [] []]; simpl in *;
      try discriminate; reflexivity.
Qed.

(** *** The operations as equations on the world *)

Lemma registerAgent_run (parseInt10 : string -> Z) (numberToString : Z -> string)
    (w : World) (now : Z) (agentId : string) (name : option string) :
  isValidAgentId agentId = true ->
  let agentName := resolveName parseInt10 numberToString agentId name in
  registerAgent parseInt10 numberToString w now agentId name
    = (Ok {| r_agentId := agentId; r_agentName := agentName |},
       {| db := upsertAgent agentId agentName now (db w);
          conn := snd (getRedisClient (conn w));
          cache := if cacheUsable (conn w)
                   then snd (registerPipeline agentId agentName now (cache w))
                   else cache w |}).
Proof.
  intros Hv. unfold registerAgent. rewrite Hv. cbn [negb].
  rewrite safeRedisCommand_run. reflexivity.
Qed.

Lemma updateHeartbeat_run (w : World) (now : Z) (agentId : string)
    (status currentQueueId : option string) (old : Agent) :
  isValidAgentId agentId = true ->
  db w !! agentId = Some old ->
  updateHeartbeat w now agentId status currentQueueId
    = (Ok tt,
       {| db := <[agentId := heartbeatUpdate old now status currentQueueId]> (db w);
          conn := snd (getRedisClient (conn w));
          cache := if cacheUsable (conn w)
                   then snd (heartbeatPipeline agentId now status (cache w))
                   else cache w |}).
Proof.
  intros Hv Hold. unfold updateHeartbeat. rewrite Hv, Hold. cbn [negb].
  rewrite safeRedisCommand_run. reflexivity.
Qed.

Lemma removeAgent_run (w : World) (agentId : string) :
  isValidAgentId agentId = true ->
  removeAgent w agentId
    = (true,
       {| db := db w;
          conn := snd (getRedisClient (conn w));
          cache := if cacheUsable (conn w)
                   then snd (removePipeline agentId (cache w))
                   else cache w |}).
Proof.
  intros Hv. unfold removeAgent. rewrite Hv. cbn [negb].
  rewrite safeRedisCommand_run. reflexivity.
Qed.

Lemma removeOfflineAgents_run (w : World) (now : Z) :
  removeOfflineAgents w now
    = {| db := if clientReady (conn w) then db w else swept now (db w);
         conn := snd (getRedisClient (conn w));
         cache := cache w |}.
Proof.
  unfold removeOfflineAgents, isRedisAvailable, clientReady, getRedisClient.
  destruct (conn w) as [[[| |]|] [] [] [] []]; reflexivity.
Qed.

Lemma listDurable_world (w : World) (now sweepNow : Z) :
  let table := if clientReady (conn w) then db w else swept sweepNow (db w) in
  listDurable w now sweepNow
    = (map (fun kv : string * Agent => fromDurable now kv.2) (map_to_list table),
       {| db := table; conn := snd (getRedisClient (conn w)); cache := cache w |}).
Proof. unfold listDurable. rewrite removeOfflineAgents_run. reflexivity. Qed.

Lemma listOnlineAgents_run (w : World) (now sweepNow : Z) :
  listOnlineAgents w now sweepNow
    = match (if cacheUsable (conn w) then cachedHashes (cache w) else []) with
      | h :: hs =>
          (map (fromCache now) (h :: hs),
           {| db := db w; conn := snd (getRedisClient (conn w)); cache := cache w |})
      | [] =>
          let table := if clientReady (conn w) then db w else swept sweepNow (db w) in
          (map (fun kv : string * Agent => fromDurable now kv.2) (map_to_list table),
           {| db := table; conn := snd (getRedisClient (conn w)); cache := cache w |})
      end.
Proof.
  destruct (getRedisClient_settles (conn w)) as (Hs1 & Hs2 & Hs3 & Hs4 & Hs5).
  unfold listOnlineAgents. rewrite safeRedisCommand_run. cbn [fst snd].
  destruct (cacheUsable (conn w)) eqn:Hu.
  - assert (Hr : clientReady (conn w) = true).
    { unfold cacheUsable in Hu. apply andb_true_iff in Hu. tauto. }
    rewrite (Hs5 Hr). unfold cachedHashes.
    destruct (smembers (cache w)) as [|i ids] eqn:Hm.
    + cbn [map List.filter]. rewrite listDurable_world. cbn [db conn cache].
      rewrite (Hs5 Hr). reflexivity.
    + rewrite safeRedisCommand_run, Hu, (Hs5 Hr). unfold readHashes. cbn [fst snd].
      destruct (List.filter hashHasKeys (map (fun i0 => hgetall i0 (cache w)) (i :: ids)))
        as [|h hs]; [|reflexivity].
      rewrite listDurable_world. cbn [db conn cache]. rewrite (Hs5 Hr). reflexivity.
  - rewrite listDurable_world. cbn [db conn cache]. rewrite Hs1, Hs2. reflexivity.
Qed.

Lemma getOnlineAgentCount_run (w : World) (sweepNow : Z) :
  getOnlineAgentCount w sweepNow
    = if cacheUsable (conn w)
      then (scard (cache w),
            {| db := db w; conn := snd (getRedisClient (conn w)); cache := cache w |})
      else
        let table := if clientReady (conn w) then db w else swept sweepNow (db w) in
        (Z.of_nat (size table),
         {| db := table; conn := snd (getRedisClient (conn w)); cache := cache w |}).
Proof.
  destruct (getRedisClient_settles (conn w)) as (Hs1 & Hs2 & _).
  unfold getOnlineAgentCount. rewrite safeRedisCommand_run. cbn [fst snd].
  destruct (cacheUsable (conn w)); [reflexivity|].
  rewrite removeOfflineAgents_run. cbn [db conn cache]. rewrite Hs1, Hs2. reflexivity.
Qed.

End ServiceRuns.

Module CoverageFacts.
Import RedisLayer AgentService AgentRoutes RegistrySpec RedisLifecycle AgentCount.
Import RegisterRoute RegistryInvariants RegistryInputs.
Import RegistryFacts ServiceRuns.

(** *** Default agent names *)

Lemma toInt32_range (x : Z) : - 2 ^ 31 <= toInt32 x < 2 ^ 31.
Proof.
  unfold toInt32. pose proof (Z.mod_pos_bound (x + 2 ^ 31) (2 ^ 32) ltac:(lia)). lia.
Qed.

Lemma hashChars_range (s : string) :
  forall h, - 2 ^ 31 <= h < 2 ^ 31 -> - 2 ^ 31 <= hashChars h s < 2 ^ 31.
Proof.
  induction s as [|c s IH]; intros h Hh; simpl; [exact Hh|].
  apply IH. unfold hashStep. apply toInt32_range.
Qed.

(** For an id that is not of the form agent-N, the number in the default
    name is between 1 and 1000, and the hash it is taken from never leaves
    the signed 32-bit range, however long the id is. *)
Theorem getAgentNumberFromId_fallback_range (parseInt10 : string -> Z) (agentId : string) :
  matchAgentNumber agentId = None ->
  1 <= getAgentNumberFromId parseInt10 agentId <= 1000 /\
  - 2 ^ 31 <= hashChars 0 agentId < 2 ^ 31.
Proof.
  intros Hm. unfold getAgentNumberFromId. rewrite Hm. split.
  - pose proof (Z.mod_pos_bound (Z.abs (hashChars 0 agentId)) 1000 ltac:(lia)). lia.
  - apply hashChars_range. lia.
Qed.

Lemma getAgentNumberFromId_fallback_range_witness :
  1 <= getAgentNumberFromId noParse "scanner_7" <= 1000 /\
  - 2 ^ 31 <= hashChars 0 "scanner_7" < 2 ^ 31.
Proof. apply (getAgentNumberFromId_fallback_range noParse "scanner_7"). reflexivity. Defined.

(** *** Cache commands *)

Lemma registerPipeline_data (agentId agentName : string) (now : Z) (d : RedisData) :
  AGENT_DATA (snd (registerPipeline agentId agentName now d))
    = <[agentId := ({| h_id := Some agentId; h_name := Some agentName;
                       h_status := Some "idle"%string; h_registeredAt := Some now |},
                    Some AGENT_TTL_SECONDS)]> (AGENT_DATA d).
Proof.
  unfold registerPipeline, expire, hset. cbn [snd AGENT_DATA AGENTS_ONLINE AGENT_HEARTBEAT sadd setex].
  rewrite lookup_insert_eq.
  destruct (AGENT_DATA d !! agentId) as [[h t]|]; cbn [AGENT_DATA];
    rewrite insert_insert_eq; reflexivity.
Qed.

Lemma heartbeatPipeline_online (agentId : string) (now : Z) (status : option string)
    (d : RedisData) :
  AGENTS_ONLINE (snd (heartbeatPipeline agentId now status d)) = {[agentId]} ∪ AGENTS_ONLINE d.
Proof.
  unfold heartbeatPipeline. cbn [snd sadd AGENTS_ONLINE]. rewrite expire_online.
  destruct (truthy status); reflexivity.
Qed.

Lemma heartbeatPipeline_heartbeat (agentId : string) (now : Z) (status : option string)
    (d : RedisData) :
  AGENT_HEARTBEAT (snd (heartbeatPipeline agentId now status d))
    = <[agentId := (now, AGENT_TTL_SECONDS)]> (AGENT_HEARTBEAT d).
Proof.
  unfold heartbeatPipeline. cbn [snd sadd AGENT_HEARTBEAT]. rewrite expire_heartbeat.
  destruct (truthy status); reflexivity.
Qed.

Lemma heartbeatPipeline_data (agentId : string) (now : Z) (status : option string)
    (d : RedisData) :
  AGENT_DATA (snd (heartbeatPipeline agentId now status d))
    = match truthy status, AGENT_DATA d !! agentId with
      | Some st, _ =>
          <[agentId := ({| h_id := h_id (hgetall agentId d);
                           h_name := h_name (hgetall agentId d);
                           h_status := Some st;
                           h_registeredAt := h_registeredAt (hgetall agentId d) |},
                        Some AGENT_TTL_SECONDS)]> (AGENT_DATA d)
      | None, Some (h, _) => <[agentId := (h, Some AGENT_TTL_SECONDS)]> (AGENT_DATA d)
      | None, None => AGENT_DATA d
      end.
Proof.
  unfold heartbeatPipeline, hgetall. cbn [snd sadd AGENT_DATA].
  destruct (truthy status) as [st|].
  - unfold expire, hset. cbn [AGENT_DATA setex]. rewrite lookup_insert_eq.
    destruct (AGENT_DATA d !! agentId) as [[h t]|]; cbn [AGENT_DATA];
      rewrite insert_insert_eq; reflexivity.
  - unfold expire. cbn [AGENT_DATA setex].
    destruct (AGENT_DATA d !! agentId) as [[h t]|]; reflexivity.
Qed.

(** *** The cache switched off, or closed *)

(** With the cache disabled the registry is the durable table alone:
    registering, removing, listing and counting leave connection and cache
    exactly as they were, removal changes nothing at all, and listing and
    counting both work on the swept table. *)
Theorem disabled_cache_is_durable_only (parseInt10 : string -> Z)
    (numberToString : Z -> string) (w : World) (now sweepNow : Z)
    (agentId : string) (name : option string) :
  redisDisabled (conn w) = true ->
  isValidAgentId agentId = true ->
  snd (registerAgent parseInt10 numberToString w now agentId name)
    = {| db := upsertAgent agentId (resolveName parseInt10 numberToString agentId name)
                 now (db w);
         conn := conn w; cache := cache w |} /\
  removeAgent w agentId = (true, w) /\
  listOnlineAgents w now sweepNow
    = (map (fun kv : string * Agent => fromDurable now kv.2)
           (map_to_list (swept sweepNow (db w))),
       {| db := swept sweepNow (db w); conn := conn w; cache := cache w |}) /\
  getOnlineAgentCount w sweepNow
    = (Z.of_nat (size (swept sweepNow (db w))),
       {| db := swept sweepNow (db w); conn := conn w; cache := cache w |}).
Proof.
  intros Hd Hv.
  assert (Hu : cacheUsable (conn w) = false)
    by (unfold cacheUsable, clientReady; rewrite Hd; reflexivity).
  assert (Hr : clientReady (conn w) = false)
    by (unfold clientReady; rewrite Hd; reflexivity).
  assert (Hc : snd (getRedisClient (conn w)) = conn w)
    by (unfold getRedisClient; rewrite Hd; reflexivity).
  split; [rewrite registerAgent_run by exact Hv; cbn [snd]; rewrite Hu, Hc; reflexivity|].
  split; [rewrite removeAgent_run by exact Hv; rewrite Hu, Hc; destruct w; reflexivity|].
  split; [rewrite listOnlineAgents_run, Hu, Hr, Hc; reflexivity|].
  rewrite getOnlineAgentCount_run, Hu, Hr, Hc. reflexivity.
Qed.

Lemma disabled_cache_is_durable_only_witness :
  removeAgent durableOnlyWorld "agent-1" = (true, durableOnlyWorld) /\
  fst (getOnlineAgentCount durableOnlyWorld 5000) = 1.
Proof.
  destruct (disabled_cache_is_durable_only noParse noPrint durableOnlyWorld 5000 5000
              "agent-1" None) as (_ & H2 & _ & H4).
  - reflexivity.
  - reflexivity.
  - split; [exact H2|]. rewrite H4. reflexivity.
Defined.

(** After [closeRedis] no command reaches the cache: whatever the
    connection was, the next wrapped command gives the fallback value,
    leaves the data alone, and the client it leaves behind is not ready. *)
Theorem closed_client_runs_no_command {T : Type} (command : RedisData -> T * RedisData)
    (fallback : option T) (c : RedisConn) (d : RedisData) :
  let '(r, c', d') := safeRedisCommand command fallback (closeRedis c) d in
  r = fallback /\ d' = d /\ isReady (redisClient c') = false /\
  closeRedis (closeRedis c) = closeRedis c.
Proof.
  rewrite safeRedisCommand_run.
  unfold cacheUsable, clientReady, closeRedis, getRedisClient.
  destruct c as [[[| |]|] [] [] [] []]; simpl; repeat split; reflexivity.
Qed.

(** *** Registration, heartbeat and removal together *)

Lemma add_then_remove (x : string) (X : gset string) : ({[x]} ∪ X) ∖ {[x]} = X ∖ {[x]}.
Proof.
  apply set_eq. intros y. rewrite !elem_of_difference, elem_of_union, elem_of_singleton. tauto.
Qed.

Lemma remove_twice (x : string) (X : gset string) : (X ∖ {[x]}) ∖ {[x]} = X ∖ {[x]}.
Proof.
  apply set_eq. intros y. rewrite !elem_of_difference, elem_of_singleton. tauto.
Qed.

Lemma add_twice (x : string) (X : gset string) : {[x]} ∪ ({[x]} ∪ X) = {[x]} ∪ X.
Proof.
  apply set_eq. intros y. rewrite !elem_of_union, elem_of_singleton. tauto.
Qed.

Lemma upsertAgent_lookup (agentId agentName : string) (now : Z) (table : gmap string Agent) :
  upsertAgent agentId agentName now table !! agentId
    = Some (match table !! agentId with
            | Some old => conflictUpdate old agentName now
            | None => insertedRow agentId agentName now
            end).
Proof.
  unfold upsertAgent. destruct (table !! agentId); apply lookup_insert_eq.
Qed.

Lemma upsertAgent_other (agentId agentName : string) (now : Z) (table : gmap string Agent)
    (other : string) :
  other <> agentId -> upsertAgent agentId agentName now table !! other = table !! other.
Proof.
  intros Hne. unfold upsertAgent.
  destruct (table !! agentId); apply lookup_insert_ne; congruence.
Qed.

(** A heartbeat that follows a registration is never turned away as not
    registered: it succeeds, stamps the row with its own time, keeps the
    registered name, and leaves status idle and the assignment empty unless
    it brings its own. *)
Theorem register_then_heartbeat (parseInt10 : string -> Z) (numberToString : Z -> string)
    (w : World) (now later : Z) (agentId : string) (name status queueId : option string) :
  isValidAgentId agentId = true ->
  let w1 := snd (registerAgent parseInt10 numberToString w now agentId name) in
  let '(res, w2) := updateHeartbeat w1 later agentId status queueId in
  res = Ok tt /\
  exists row,
    db w2 !! agentId = Some row /\
    a_lastHeartbeat row = later /\
    a_name row = resolveName parseInt10 numberToString agentId name /\
    a_status row = match status with
                   | None | Some EmptyString => "idle"%string
                   | Some st => st
                   end /\
    a_currentQueueId row = queueId.
Proof.
  intros Hv. rewrite registerAgent_run by exact Hv. cbn [snd].
  match goal with
  | |- context [updateHeartbeat ?w1 _ _ _ _] =>
      assert (Hrow : exists old, db w1 !! agentId = Some old /\
                a_name old = resolveName parseInt10 numberToString agentId name /\
                a_status old = "idle"%string /\ a_currentQueueId old = None)
  end.
  { cbn [db]. rewrite upsertAgent_lookup. eexists. split; [reflexivity|].
    destruct (db w !! agentId); repeat split. }
  destruct Hrow as (old & Hold & Hn & Hs & Hq).
  rewrite (updateHeartbeat_run _ later agentId status queueId old Hv Hold).
  split; [reflexivity|]. eexists. cbn [db]. split; [apply lookup_insert_eq|].
  cbn [heartbeatUpdate a_lastHeartbeat a_name a_status a_currentQueueId].
  split; [reflexivity|]. split; [exact Hn|]. split.
  - rewrite Hs. destruct status as [[|ch st]|]; reflexivity.
  - rewrite Hq. destruct queueId; reflexivity.
Qed.

Lemma register_then_heartbeat_witness :
  fst (updateHeartbeat (snd (registerAgent noParse noPrint lostWorld 2000 "agent-1" None))
         3000 "agent-1" (Some "busy"%string) None) = Ok tt.
Proof.
  pose proof (register_then_heartbeat noParse noPrint lostWorld 2000 3000 "agent-1"
                None (Some "busy"%string) None eq_refl) as H.
  cbv zeta in H.
  destruct (updateHeartbeat _ 3000 "agent-1" (Some "busy"%string) None) as [res w2].
  exact (proj1 H).
Defined.

(** Registering an id that already has a row keeps the row's id,
    registration time and secret, whatever else it resets; registering a new
    id creates a row under that id, registered now and without secret. *)
Theorem registerAgent_keeps_identity (parseInt10 : string -> Z)
    (numberToString : Z -> string) (w : World) (now : Z) (agentId : string)
    (name : option string) :
  isValidAgentId agentId = true ->
  exists row,
    db (snd (registerAgent parseInt10 numberToString w now agentId name)) !! agentId
      = Some row /\
    match db w !! agentId with
    | Some old =>
        a_id row = a_id old /\ a_registeredAt row = a_registeredAt old /\
        a_secret row = a_secret old
    | None =>
        a_id row = agentId /\ a_registeredAt row = now /\ a_secret row = None
    end.
Proof.
  intros Hv. rewrite registerAgent_run by exact Hv. cbn [snd db].
  eexists. split; [apply upsertAgent_lookup|].
  destruct (db w !! agentId); repeat split.
Qed.

Lemma registerAgent_keeps_identity_witness :
  exists row,
    db (snd (registerAgent noParse noPrint liveWorld 2000 "agent-1" None)) !! "agent-1"%string
      = Some row /\
    a_registeredAt row = 500 /\ a_secret row = Some "s3"%string.
Proof.
  destruct (registerAgent_keeps_identity noParse noPrint liveWorld 2000 "agent-1" None eq_refl)
    as (row & Hrow & H).
  exists row. split; [exact Hrow|].
  change (db liveWorld !! "agent-1"%string) with (Some worker) in H.
  destruct H as (_ & H2 & H3). split; [exact H2 | exact H3].
Defined.

(** Removing an agent right after registering it leaves the cache as a
    removal alone would have left it, so the registration leaves no trace
    in the cache, while the durable row it wrote stays. *)
Theorem register_then_remove (parseInt10 : string -> Z) (numberToString : Z -> string)
    (w : World) (now : Z) (agentId : string) (name : option string) :
  isValidAgentId agentId = true ->
  let w1 := snd (registerAgent parseInt10 numberToString w now agentId name) in
  let w2 := snd (removeAgent w1 agentId) in
  cache w2 = cache (snd (removeAgent w agentId)) /\
  db w2 = db w1 /\
  is_Some (db w2 !! agentId).
Proof.
  intros Hv. cbv zeta.
  rewrite registerAgent_run by exact Hv. cbn [snd].
  rewrite !removeAgent_run by exact Hv. cbn [snd db conn cache].
  destruct (getRedisClient_settles (conn w)) as (_ & _ & _ & Hu' & _). rewrite Hu'.
  split; [|split; [reflexivity | rewrite upsertAgent_lookup; eexists; reflexivity]].
  destruct (cacheUsable (conn w)); [|reflexivity].
  rewrite !removePipeline_cache.
  rewrite registerPipeline_online, registerPipeline_heartbeat, registerPipeline_data.
  rewrite !delete_insert_eq, add_then_remove. reflexivity.
Qed.

Lemma register_then_remove_witness :
  cache (snd (removeAgent (snd (registerAgent noParse noPrint liveWorld 2000 "agent-1" None))
                "agent-1"))
    = cache (snd (removeAgent liveWorld "agent-1")).
Proof.
  exact (proj1 (register_then_remove noParse noPrint liveWorld 2000 "agent-1" None eq_refl)).
Defined.

(** Removal is idempotent: a second removal of the same id changes
    nothing, in the durable table, the cache or the connection, whether the
    id is well formed or not and whether the cache can be reached or not. *)
Theorem removeAgent_idempotent (w : World) (agentId : string) :
  removeAgent (snd (removeAgent w agentId)) agentId = removeAgent w agentId.
Proof.
  destruct (isValidAgentId agentId) eqn:Hv.
  - rewrite (removeAgent_run w) by exact Hv. cbn [snd].
    rewrite removeAgent_run by exact Hv. cbn [db conn cache].
    destruct (getRedisClient_settles (conn w)) as (Hs & _ & _ & Hu' & _).
    rewrite Hs, Hu'. f_equal. f_equal.
    destruct (cacheUsable (conn w)); [|reflexivity].
    rewrite !removePipeline_cache. cbn [AGENTS_ONLINE AGENT_HEARTBEAT AGENT_DATA].
    rewrite !delete_delete_eq, remove_twice. reflexivity.
  - unfold removeAgent. rewrite Hv. cbn [negb snd]. rewrite ?Hv. reflexivity.
Qed.

(** Registration is idempotent: registering the same id with the same name
    twice at the same time leaves the world as one registration does. *)
Theorem registerAgent_idempotent (parseInt10 : string -> Z) (numberToString : Z -> string)
    (w : World) (now : Z) (agentId : string) (name : option string) :
  registerAgent parseInt10 numberToString
      (snd (registerAgent parseInt10 numberToString w now agentId name)) now agentId name
    = registerAgent parseInt10 numberToString w now agentId name.
Proof.
  destruct (isValidAgentId agentId) eqn:Hv.
  - rewrite (registerAgent_run _ _ w) by exact Hv. cbn [snd].
    rewrite registerAgent_run by exact Hv. cbn [db conn cache].
    destruct (getRedisClient_settles (conn w)) as (Hs & _ & _ & Hu' & _).
    rewrite Hs, Hu'. f_equal. f_equal.
    + unfold upsertAgent at 1. rewrite upsertAgent_lookup.
      unfold upsertAgent. destruct (db w !! agentId) as [old|];
        rewrite insert_insert_eq; reflexivity.
    + destruct (cacheUsable (conn w)); [|reflexivity].
      set (d1 := snd (registerPipeline agentId _ now (cache w))).
      assert (Hrec : forall d d' : RedisData,
                AGENTS_ONLINE d = AGENTS_ONLINE d' ->
                AGENT_HEARTBEAT d = AGENT_HEARTBEAT d' ->
                AGENT_DATA d = AGENT_DATA d' -> d = d').
      { intros [o h a] [o' h' a']; simpl; intros -> -> ->; reflexivity. }
      apply Hrec.
      * rewrite registerPipeline_online. subst d1. rewrite registerPipeline_online.
        apply add_twice.
      * rewrite registerPipeline_heartbeat. subst d1. rewrite registerPipeline_heartbeat.
        apply insert_insert_eq.
      * rewrite registerPipeline_data. subst d1. rewrite registerPipeline_data.
        apply insert_insert_eq.
  - unfold registerAgent. rewrite Hv. cbn [negb snd]. rewrite ?Hv. reflexivity.
Qed.

(** *** Invariants of the two stores *)

Lemma TableKeyed_insert (table : gmap string Agent) (k : string) (a : Agent) :
  TableKeyed table -> a_id a = k -> TableKeyed (<[k := a]> table).
Proof.
  intros Ht Ha j b Hj. apply lookup_insert_Some in Hj.
  destruct Hj as [[<- <-]|[_ Hj]]; [exact Ha | exact (Ht _ _ Hj)].
Qed.

Lemma TableKeyed_swept (table : gmap string Agent) (now : Z) :
  TableKeyed table -> TableKeyed (swept now table).
Proof. intros Ht j b Hj. apply swept_lookup in Hj. exact (Ht _ _ (proj1 Hj)). Qed.

Lemma TableKeyed_upsert (table : gmap string Agent) (agentId agentName : string) (now : Z) :
  TableKeyed table -> TableKeyed (upsertAgent agentId agentName now table).
Proof.
  intros Ht. unfold upsertAgent. destruct (table !! agentId) as [old|] eqn:Hold;
    apply TableKeyed_insert; try exact Ht; [exact (Ht _ _ Hold) | reflexivity].
Qed.

(** No operation of the registry ever files a durable row under an id
    other than its own: if every row sits under its id before a call, so it
    does after it, whatever the arguments and the state of the cache. *)
Theorem table_stays_keyed (parseInt10 : string -> Z) (numberToString : Z -> string)
    (w : World) (now sweepNow : Z) (agentId : string) (name status queueId : option string) :
  TableKeyed (db w) ->
  TableKeyed (db (snd (registerAgent parseInt10 numberToString w now agentId name))) /\
  TableKeyed (db (snd (updateHeartbeat w now agentId status queueId))) /\
  TableKeyed (db (snd (removeAgent w agentId))) /\
  TableKeyed (db (snd (listOnlineAgents w now sweepNow))) /\
  TableKeyed (db (snd (getOnlineAgentCount w sweepNow))).
Proof.
  intros Ht.
  assert (Hcond : TableKeyed (if clientReady (conn w) then db w else swept sweepNow (db w))).
  { destruct (clientReady (conn w)); [exact Ht | apply TableKeyed_swept, Ht]. }
  split; [|split; [|split; [|split]]].
  - destruct (isValidAgentId agentId) eqn:Hv.
    + rewrite registerAgent_run by exact Hv. apply TableKeyed_upsert, Ht.
    + unfold registerAgent. rewrite Hv. exact Ht.
  - destruct (isValidAgentId agentId) eqn:Hv.
    + destruct (db w !! agentId) as [old|] eqn:Hold.
      * rewrite (updateHeartbeat_run w now agentId status queueId old Hv Hold).
        apply TableKeyed_insert; [exact Ht | exact (Ht _ _ Hold)].
      * unfold updateHeartbeat. rewrite Hv, Hold. exact Ht.
    + unfold updateHeartbeat. rewrite Hv. exact Ht.
  - destruct (isValidAgentId agentId) eqn:Hv.
    + rewrite removeAgent_run by exact Hv. exact Ht.
    + unfold removeAgent. rewrite Hv. exact Ht.
  - rewrite listOnlineAgents_run.
    destruct (if cacheUsable (conn w) then cachedHashes (cache w) else []);
      [exact Hcond | exact Ht].
  - rewrite getOnlineAgentCount_run.
    destruct (cacheUsable (conn w)); [exact Ht | exact Hcond].
Qed.

Lemma table_stays_keyed_witness :
  TableKeyed (db (snd (registerAgent noParse noPrint liveWorld 2000 "agent-2" None))) /\
  TableKeyed (db (snd (listOnlineAgents lostWorld 90000 90000))).
Proof.
  assert (Hk : TableKeyed (db liveWorld)).
  { intros k a Hka. unfold liveWorld in Hka. cbn [db] in Hka.
    apply lookup_singleton_Some in Hka. destruct Hka as [<- <-]. reflexivity. }
  split.
  - exact (proj1 (table_stays_keyed noParse noPrint liveWorld 2000 2000 "agent-2"
                    None None None Hk)).
  - exact (proj1 (proj2 (proj2 (proj2 (table_stays_keyed noParse noPrint lostWorld
                    90000 90000 "agent-2" None None None Hk))))).
Defined.

(** No operation of the registry leaves a heartbeat key or a data hash in
    the cache without the agent time-to-live: if all of them carry it
    before a call, all of them carry it after. *)
Theorem cache_entries_always_expire (parseInt10 : string -> Z) (numberToString : Z -> string)
    (w : World) (now sweepNow : Z) (agentId : string) (name status queueId : option string) :
  CacheExpires (cache w) ->
  CacheExpires (cache (snd (registerAgent parseInt10 numberToString w now agentId name))) /\
  CacheExpires (cache (snd (updateHeartbeat w now agentId status queueId))) /\
  CacheExpires (cache (snd (removeAgent w agentId))) /\
  CacheExpires (cache (snd (listOnlineAgents w now sweepNow))) /\
  CacheExpires (cache (snd (getOnlineAgentCount w sweepNow))).
Proof.
  intros Hc. pose proof Hc as [Hhb Hdata].
  split; [|split; [|split; [|split]]].
  - destruct (isValidAgentId agentId) eqn:Hv.
    + rewrite registerAgent_run by exact Hv. cbn [snd cache].
      destruct (cacheUsable (conn w)); [|exact Hc]. split.
      * intros k v t. rewrite registerPipeline_heartbeat, lookup_insert_Some.
        intros [[_ [= _ <-]]|[_ H]]; [reflexivity | exact (Hhb _ _ _ H)].
      * intros k h t. rewrite registerPipeline_data, lookup_insert_Some.
        intros [[_ [= _ <-]]|[_ H]]; [reflexivity | exact (Hdata _ _ _ H)].
    + unfold registerAgent. rewrite Hv. exact Hc.
  - destruct (isValidAgentId agentId) eqn:Hv.
    + destruct (db w !! agentId) as [old|] eqn:Hold.
      * rewrite (updateHeartbeat_run w now agentId status queueId old Hv Hold).
        cbn [snd cache]. destruct (cacheUsable (conn w)); [|exact Hc]. split.
        -- intros k v t. rewrite heartbeatPipeline_heartbeat, lookup_insert_Some.
           intros [[_ [= _ <-]]|[_ H]]; [reflexivity | exact (Hhb _ _ _ H)].
        -- intros k h t. rewrite heartbeatPipeline_data.
           destruct (truthy status) as [st|].
           ++ rewrite lookup_insert_Some.
              intros [[_ [= _ <-]]|[_ H]]; [reflexivity | exact (Hdata _ _ _ H)].
           ++ destruct (AGENT_DATA (cache w) !! agentId) as [[h0 t0]|]; [|apply Hdata].
              rewrite lookup_insert_Some.
              intros [[_ [= _ <-]]|[_ H]]; [reflexivity | exact (Hdata _ _ _ H)].
      * unfold updateHeartbeat. rewrite Hv, Hold. exact Hc.
    + unfold updateHeartbeat. rewrite Hv. exact Hc.
  - destruct (isValidAgentId agentId) eqn:Hv.
    + rewrite removeAgent_run by exact Hv. cbn [snd cache].
      destruct (cacheUsable (conn w)); [|exact Hc].
      rewrite removePipeline_cache. split; cbn [AGENT_HEARTBEAT AGENT_DATA].
      * intros k v t H. apply lookup_delete_Some in H. exact (Hhb _ _ _ (proj2 H)).
      * intros k h t H. apply lookup_delete_Some in H. exact (Hdata _ _ _ (proj2 H)).
    + unfold removeAgent. rewrite Hv. exact Hc.
  - rewrite listOnlineAgents_run.
    destruct (if cacheUsable (conn w) then cachedHashes (cache w) else []); exact Hc.
  - rewrite getOnlineAgentCount_run. destruct (cacheUsable (conn w)); exact Hc.
Qed.

Lemma cache_entries_always_expire_witness :
  CacheExpires (cache (snd (registerAgent noParse noPrint liveWorld 2000 "agent-1" None))) /\
  CacheExpires (cache (snd (updateHeartbeat liveWorld 2000 "agent-1" (Some "busy"%string) None))).
Proof.
  assert (Hc : CacheExpires (cache liveWorld)).
  { split; intros k x t H; cbn in H; rewrite lookup_empty in H; discriminate. }
  pose proof (cache_entries_always_expire noParse noPrint liveWorld 2000 2000 "agent-1"
                None (Some "busy"%string) None Hc) as (H1 & H2 & _).
  split; [exact H1 | exact H2].
Defined.

(** Only removal ever takes an id out of the online set, and it takes out
    no other id than the one removed: registration, heartbeat, listing and
    counting keep every member, whatever their arguments. *)
Theorem online_set_only_shrinks_by_removal (parseInt10 : string -> Z)
    (numberToString : Z -> string) (w : World) (now sweepNow : Z) (agentId : string)
    (name status queueId : option string) (member : string) :
  member ∈ AGENTS_ONLINE (cache w) ->
  member ∈ AGENTS_ONLINE
    (cache (snd (registerAgent parseInt10 numberToString w now agentId name))) /\
  member ∈ AGENTS_ONLINE (cache (snd (updateHeartbeat w now agentId status queueId))) /\
  member ∈ AGENTS_ONLINE (cache (snd (listOnlineAgents w now sweepNow))) /\
  member ∈ AGENTS_ONLINE (cache (snd (getOnlineAgentCount w sweepNow))) /\
  (member <> agentId -> member ∈ AGENTS_ONLINE (cache (snd (removeAgent w agentId)))).
Proof.
  intros Hm.
  split; [|split; [|split; [|split]]].
  - destruct (isValidAgentId agentId) eqn:Hv.
    + rewrite registerAgent_run by exact Hv. cbn [snd cache].
      destruct (cacheUsable (conn w)); [|exact Hm].
      rewrite registerPipeline_online. apply elem_of_union_r, Hm.
    + unfold registerAgent. rewrite Hv. exact Hm.
  - destruct (isValidAgentId agentId) eqn:Hv.
    + destruct (db w !! agentId) as [old|] eqn:Hold.
      * rewrite (updateHeartbeat_run w now agentId status queueId old Hv Hold).
        cbn [snd cache]. destruct (cacheUsable (conn w)); [|exact Hm].
        rewrite heartbeatPipeline_online. apply elem_of_union_r, Hm.
      * unfold updateHeartbeat. rewrite Hv, Hold. exact Hm.
    + unfold updateHeartbeat. rewrite Hv. exact Hm.
  - rewrite listOnlineAgents_run.
    destruct (if cacheUsable (conn w) then cachedHashes (cache w) else []); exact Hm.
  - rewrite getOnlineAgentCount_run. destruct (cacheUsable (conn w)); exact Hm.
  - intros Hne. destruct (isValidAgentId agentId) eqn:Hv.
    + rewrite removeAgent_run by exact Hv. cbn [snd cache].
      destruct (cacheUsable (conn w)); [|exact Hm].
      rewrite removePipeline_cache. cbn [AGENTS_ONLINE].
      apply elem_of_difference. split; [exact Hm|].
      rewrite elem_of_singleton. exact Hne.
    + unfold removeAgent. rewrite Hv. exact Hm.
Qed.

Lemma online_set_only_shrinks_by_removal_witness :
  "agent-1"%string ∈ AGENTS_ONLINE
    (cache (snd (registerAgent noParse noPrint trackedWorld 2000 "agent-2" None))) /\
  "agent-1"%string ∈ AGENTS_ONLINE (cache (snd (removeAgent trackedWorld "agent-2"))).
Proof.
  assert (Hm : "agent-1"%string ∈ AGENTS_ONLINE (cache trackedWorld)).
  { unfold trackedWorld. cbn [cache AGENTS_ONLINE]. apply elem_of_singleton. reflexivity. }
  pose proof (online_set_only_shrinks_by_removal noParse noPrint trackedWorld 2000 2000
                "agent-2" None None None "agent-1" Hm) as (H1 & _ & _ & _ & H5).
  split; [exact H1 | apply H5; discriminate].
Defined.

(** *** Listing and counting *)

(** [getOnlineAgentCount] never changes the cache and never answers a
    negative number.  On a usable cache the answer is the cardinality of the
    online set and the durable table is left alone; otherwise it is the
    number of durable rows after a sweep that runs only when no ready
    client is available. *)
Theorem getOnlineAgentCount_spec (w : World) (sweepNow : Z) :
  let '(n, w') := getOnlineAgentCount w sweepNow in
  cache w' = cache w /\ 0 <= n /\
  if cacheUsable (conn w) then
    n = Z.of_nat (size (AGENTS_ONLINE (cache w))) /\ db w' = db w
  else
    db w' = (if clientReady (conn w) then db w else swept sweepNow (db w)) /\
    n = Z.of_nat (size (db w')).
Proof.
  rewrite getOnlineAgentCount_run.
  destruct (cacheUsable (conn w)); cbn [cache db]; unfold scard;
    repeat split; lia.
Qed.

Lemma cached_member_is_listed (w : World) (now sweepNow : Z) (agentId : string) :
  cacheUsable (conn w) = true ->
  agentId ∈ AGENTS_ONLINE (cache w) ->
  hashHasKeys (hgetall agentId (cache w)) = true ->
  In (fromCache now (hgetall agentId (cache w))) (fst (listOnlineAgents w now sweepNow)).
Proof.
  intros Hu Hm Hk.
  assert (Hin : In (hgetall agentId (cache w)) (cachedHashes (cache w))).
  { unfold cachedHashes. apply filter_In. split; [|exact Hk].
    apply in_map_iff. exists agentId. split; [reflexivity|].
    apply list_elem_of_In. unfold smembers. apply elem_of_elements. exact Hm. }
  rewrite listOnlineAgents_run, Hu.
  destruct (cachedHashes (cache w)) as [|h hs]; [destruct Hin|].
  cbn [fst]. apply in_map. exact Hin.
Qed.

(** On a usable cache, every member of the online set whose data hash has
    keys is listed, as online, with the fields of its hash. *)
Theorem listOnlineAgents_lists_cached_members (w : World) (now sweepNow : Z)
    (agentId : string) :
  cacheUsable (conn w) = true ->
  agentId ∈ AGENTS_ONLINE (cache w) ->
  hashHasKeys (hgetall agentId (cache w)) = true ->
  In (fromCache now (hgetall agentId (cache w))) (fst (listOnlineAgents w now sweepNow)) /\
  l_offline (fromCache now (hgetall agentId (cache w))) = false.
Proof.
  intros Hu Hm Hk. split; [apply cached_member_is_listed; assumption | reflexivity].
Qed.

Lemma listOnlineAgents_lists_cached_members_witness :
  let w := snd (registerAgent noParse noPrint liveWorld 2000 "agent-1" None) in
  In (fromCache 3000 (hgetall "agent-1" (cache w))) (fst (listOnlineAgents w 3000 3000)).
Proof.
  intros w.
  refine (proj1 (listOnlineAgents_lists_cached_members w 3000 3000 "agent-1" _ _ _)).
  - reflexivity.
  - unfold w. cbn. apply elem_of_union_l, elem_of_singleton. reflexivity.
  - reflexivity.
Defined.

(** On a usable cache the count is the size of the online set whatever
    the hashes say, so it disagrees with the list: the list read from the
    cache is never longer than the count, and on an empty online set the
    count is 0 while the list is the whole durable table, unswept. *)
Theorem count_and_list_disagree (w : World) (now sweepNow : Z) :
  cacheUsable (conn w) = true ->
  (cachedHashes (cache w) <> [] ->
     Z.of_nat (length (fst (listOnlineAgents w now sweepNow)))
       <= fst (getOnlineAgentCount w sweepNow)) /\
  (AGENTS_ONLINE (cache w) = ∅ ->
     fst (getOnlineAgentCount w sweepNow) = 0 /\
     fst (listOnlineAgents w now sweepNow)
       = map (fun kv : string * Agent => fromDurable now kv.2) (map_to_list (db w))).
Proof.
  intros Hu.
  assert (Hr : clientReady (conn w) = true).
  { unfold cacheUsable in Hu. apply andb_true_iff in Hu. tauto. }
  rewrite getOnlineAgentCount_run, listOnlineAgents_run, Hu, Hr. cbn [fst]. split.
  - intros Hne.
    assert (Hlen : (length (cachedHashes (cache w)) <= size (AGENTS_ONLINE (cache w)))%nat).
    { unfold cachedHashes, smembers.
      etransitivity; [apply filter_length_le|]. rewrite length_map. reflexivity. }
    destruct (cachedHashes (cache w)) as [|h hs] eqn:Hh; [congruence|].
    cbn [fst]. rewrite length_map. unfold scard. lia.
  - intros He. unfold scard, cachedHashes, smembers. rewrite He.
    rewrite size_empty, elements_empty. split; reflexivity.
Qed.

Lemma count_and_list_disagree_witness :
  fst (getOnlineAgentCount liveWorld 5000) = 0 /\
  length (fst (listOnlineAgents liveWorld 5000 5000)) = 1%nat.
Proof.
  destruct (count_and_list_disagree liveWorld 5000 5000 eq_refl) as [_ H].
  destruct (H eq_refl) as [H1 H2]. split; [exact H1|]. rewrite H2. reflexivity.
Defined.

(** When no ready client is available and the clock does not run
    backwards, listing sweeps the durable table first, so every agent it
    returns is within the timeout at the sweep, none is reported offline,
    and the stale rows are gone from the table for good. *)
Theorem listing_without_cache_reports_nobody_offline (w : World) (now sweepNow : Z) :
  clientReady (conn w) = false ->
  now <= sweepNow ->
  let '(l, w') := listOnlineAgents w now sweepNow in
  Forall (fun a => l_offline a = false) l /\
  db w' = swept sweepNow (db w) /\
  (forall k a, db w' !! k = Some a ->
     db w !! k = Some a /\ sweepNow - a_lastHeartbeat a <= HEARTBEAT_TIMEOUT_MS).
Proof.
  intros Hr Hclock.
  assert (Hu : cacheUsable (conn w) = false) by (unfold cacheUsable; rewrite Hr; reflexivity).
  rewrite listOnlineAgents_run, Hu, Hr. cbv zeta. cbn [db].
  split; [|split; [reflexivity|]].
  - rewrite Forall_map. apply Forall_forall. intros [k a] Hin.
    apply elem_of_map_to_list in Hin. apply swept_lookup in Hin. destruct Hin as [_ Hin].
    unfold fromDurable. cbn [l_offline snd]. apply Z.ltb_ge. lia.
  - intros k a Hka. apply swept_lookup in Hka. destruct Hka as [Hka Hlive].
    split; [exact Hka | lia].
Qed.

Lemma listing_without_cache_reports_nobody_offline_witness :
  Forall (fun a => l_offline a = false) (fst (listOnlineAgents lostWorld 90000 90000)) /\
  db (snd (listOnlineAgents lostWorld 90000 90000)) = swept 90000 (db lostWorld).
Proof.
  pose proof (listing_without_cache_reports_nobody_offline lostWorld 90000 90000
                eq_refl (Z.le_refl 90000)) as H.
  destruct (listOnlineAgents lostWorld 90000 90000) as [l w'].
  destruct H as (H1 & H2 & _). split; [exact H1 | exact H2].
Defined.

(** *** What the cache shows after a registration or a heartbeat *)





(** A heartbeat without a status (or with the empty one), for an agent
    whose data hash is gone from a usable cache, puts the agent back into
    the online set and renews its heartbeat key, but creates no hash: the
    agent is counted as online and has nothing to be listed from. *)
Theorem heartbeat_without_status_leaves_no_hash (w : World) (now : Z)
    (agentId : string) (status queueId : option string) (old : Agent) :
  isValidAgentId agentId = true ->
  db w !! agentId = Some old ->
  cacheUsable (conn w) = true ->
  AGENT_DATA (cache w) !! agentId = None ->
  truthy status = None ->
  let w1 := snd (updateHeartbeat w now agentId status queueId) in
  agentId ∈ AGENTS_ONLINE (cache w1) /\
  AGENT_HEARTBEAT (cache w1) !! agentId = Some (now, AGENT_TTL_SECONDS) /\
  AGENT_DATA (cache w1) = AGENT_DATA (cache w) /\
  hashHasKeys (hgetall agentId (cache w1)) = false.
Proof.
  intros Hv Hold Hu Hnone Hst w1.
  assert (Hw1 : cache w1 = snd (heartbeatPipeline agentId now status (cache w))).
  { unfold w1. rewrite (updateHeartbeat_run w now agentId status queueId old Hv Hold).
    rewrite Hu. reflexivity. }
  assert (Hd : AGENT_DATA (cache w1) = AGENT_DATA (cache w)).
  { rewrite Hw1, heartbeatPipeline_data, Hst, Hnone. reflexivity. }
  split; [rewrite Hw1, heartbeatPipeline_online;
          apply elem_of_union_l, elem_of_singleton; reflexivity|].
  split; [rewrite Hw1, heartbeatPipeline_heartbeat; apply lookup_insert_eq|].
  split; [exact Hd|].
  unfold hgetall. rewrite Hd, Hnone. reflexivity.
Qed.

Lemma heartbeat_without_status_leaves_no_hash_witness :
  let w1 := snd (updateHeartbeat liveWorld 2000 "agent-1" None None) in
  "agent-1"%string ∈ AGENTS_ONLINE (cache w1) /\
  hashHasKeys (hgetall "agent-1" (cache w1)) = false.
Proof.
  destruct (heartbeat_without_status_leaves_no_hash liveWorld 2000 "agent-1" None None
              worker eq_refl eq_refl eq_refl eq_refl eq_refl) as (H1 & _ & _ & H4).
  split; [exact H1 | exact H4].
Defined.

(** *** The registration route *)


End CoverageFacts.
